(** * Anchor-target assignment of the region proposal network

    A shallow embedding of [frcnn/anchor.py] (class [AnchorTarget]) and the
    properties of its label assignment, balanced sampling and weighting.

    Conventions of the embedding:
    - numpy float arrays are lists of rationals [Q]; every finite float is a
      rational and the code only compares, selects and copies overlap values,
      so comparisons are exact.  Rounding of products and quotients to
      float32/float64 is not modelled;
    - the label array holds the floats -1, 0 and 1, modelled as [Z];
    - index arrays ([np.where], [argmax]) are lists of [nat];
    - Python exceptions are the [Raise] branch of [result];
    - the global state of [np.random] is threaded explicitly. *)

From Stdlib Require Import ZArith QArith Qround Qminmax Lia.
From stdpp Require Import base list gmap strings.

Local Open Scope nat_scope.
Local Open Scope list_scope.

(** ** Exceptions and results *)

Inductive exn : Type :=
  | NameError (name : string)
  | ValueError (msg : string)
  | TypeError (msg : string)
  | IndexError (msg : string).

Inductive result (A : Type) : Type :=
  | Ok (a : A)
  | Raise (e : exn).
Arguments Ok {A} a.
Arguments Raise {A} e.

(** The exception monad, with stdpp's [x ← m; k] notation. *)
#[global] Instance result_bind : MBind result :=
  fun A B (k : A -> result B) (m : result A) =>
    match m with
    | Ok a => k a
    | Raise e => Raise e
    end.

#[global] Instance result_ret : MRet result := fun A a => Ok a.

(** ** Rational comparisons, as booleans *)

Definition Qltb (a b : Q) : bool := negb (Qle_bool b a).
Definition Qgeb (a b : Q) : bool := Qle_bool b a.

(** ** numpy primitives *)

(** A two-dimensional float array with its shape; the shape is kept apart
    from the rows because numpy distinguishes an [N x 0] from a [0 x M]
    array. *)
Record ndarray2 : Type := {
  nrows : nat;
  ncols : nat;
  rows : list (list Q)
}.

Definition well_shaped (a : ndarray2) : Prop :=
  length (rows a) = nrows a /\ Forall (fun r => length r = ncols a) (rows a).

(** [a[i, j]] for in-range indices. *)
Definition cell (a : ndarray2) (i j : nat) : Q :=
  nth j (nth i (rows a) []) 0%Q.

Definition column (j : nat) (a : ndarray2) : list Q :=
  (fun r => nth j r 0%Q) <$> rows a.

(** [argmax] of a non-empty vector: the index of the first occurrence of
    the maximum. *)
Fixpoint argmax_from (best : nat) (bv : Q) (i : nat) (l : list Q) : nat :=
  match l with
  | [] => best
  | x :: t =>
      if Qltb bv x then argmax_from i x (S i) t
      else argmax_from best bv (S i) t
  end.

Definition argmax (l : list Q) : nat :=
  match l with
  | [] => 0
  | x :: t => argmax_from 0 x 1 t
  end.

Definition empty_argmax : exn :=
  ValueError "attempt to get argmax of an empty sequence".

(** [a.argmax(axis=1)]: numpy refuses a reduction axis of length 0. *)
Definition argmax_axis1 (a : ndarray2) : result (list nat) :=
  if ncols a =? 0 then Raise empty_argmax
  else Ok (argmax <$> rows a).

(** [a.argmax(axis=0)]. *)
Definition argmax_axis0 (a : ndarray2) : result (list nat) :=
  if nrows a =? 0 then Raise empty_argmax
  else Ok ((fun j => argmax (column j a)) <$> seq 0 (ncols a)).

(** [np.where(mask)[0]] on a vector. *)
Fixpoint where_from (i : nat) (mask : list bool) : list nat :=
  match mask with
  | [] => []
  | b :: t => if b then i :: where_from (S i) t else where_from (S i) t
  end.

Definition np_where (mask : list bool) : list nat := where_from 0 mask.

(** [np.where(a == v)[0]] for a matrix [a] and a row vector [v] broadcast
    over the rows: the row index of every matching cell, in row-major
    order, so a row is listed once per matching column. *)
Fixpoint where_rows_from (i : nat) (rs : list (list Q)) (v : list Q)
  : list nat :=
  match rs with
  | [] => []
  | r :: t =>
      ((fun _ => i) <$> np_where (zip_with Qeq_bool r v))
        ++ where_rows_from (S i) t v
  end.

Definition where_eq_rows (a : ndarray2) (v : list Q) : list nat :=
  where_rows_from 0 (rows a) v.

(** [labels[mask] = v]; the mask always has the length of [labels]. *)
Definition assign_mask {A : Type} (mask : list bool) (v : A) (labels : list A)
  : list A :=
  zip_with (fun (b : bool) l => if b then v else l) mask labels.

(** [labels[inds] = v] for an index array. *)
Definition assign_inds {A : Type} (inds : list nat) (v : A) (labels : list A)
  : list A :=
  foldl (fun acc i => <[i:=v]> acc) labels inds.

(** [np.sum(labels == v)] and [np.sum(labels >= 0)]. *)
Definition count_eq (v : Z) (labels : list Z) : nat :=
  length (filter (fun l => l = v) labels).

Definition count_ge0 (labels : list Z) : nat :=
  length (filter (fun l => (0 <= l)%Z) labels).

(** ** The labeler object *)

Definition vec4 : Type := (Q * Q * Q * Q)%type.
Definition zero4 : vec4 := (0, 0, 0, 0)%Q.

(** A ground-truth row [(x1, y1, x2, y2, class)]. *)
Definition gt_box : Type := (vec4 * Q)%type.

Record AnchorTarget : Type := {
  _anchor_scales : list Q;
  _anchor_ratios : list Q;
  _anchors : list vec4;
  _num_anchors : nat;
  _feat_stride : list Z;
  _allowed_border : Q;
  _clobber_positives : bool;
  _positive_overlap : Q;
  _negative_overlap : Q;
  _foreground_fraction : Q;
  _batch_size : Z;
  _bbox_inside_weights : vec4
}.

(** [AnchorTarget.__init__]: the thresholds are not parameters of the
    constructor; it installs fixed values and checks nothing.
    [generate_anchors] is imported from [utils.generate_anchors]. *)
Definition __init__ (generate_anchors : list Q -> list Q -> list vec4)
    (anchor_scales anchor_ratios : list Q) (feat_stride : list Z)
  : AnchorTarget :=
  let anchors := generate_anchors anchor_ratios anchor_scales in
  {| _anchor_scales := anchor_scales;
     _anchor_ratios := anchor_ratios;
     _anchors := anchors;
     _num_anchors := length anchors;
     _feat_stride := feat_stride;
     _allowed_border := 0;
     _clobber_positives := false;
     _positive_overlap := 7 # 10;
     _negative_overlap := 3 # 10;
     _foreground_fraction := 1 # 2;
     _batch_size := 256;
     _bbox_inside_weights := (1, 1, 1, 1)%Q |}.

(** ** Overlap matcher (lines 145-150) *)

Record matches : Type := {
  argmax_overlaps : list nat;
  max_overlaps : list Q;
  gt_max_overlaps : list Q;
  gt_argmax_overlaps : list nat
}.

Definition overlap_matcher (overlaps : ndarray2) : result matches :=
  am ← argmax_axis1 overlaps;
  let mx := zip_with (fun r k => nth k r 0%Q) (rows overlaps) am in
  gam ← argmax_axis0 overlaps;
  let gmx :=
    zip_with (fun i j => cell overlaps i j) gam (seq 0 (ncols overlaps)) in
  Ok {| argmax_overlaps := am;
        max_overlaps := mx;
        gt_max_overlaps := gmx;
        gt_argmax_overlaps := where_eq_rows overlaps gmx |}.

(** What the specification calls the maximum of column [j]: a value
    attained in the column that bounds every entry of it. *)
Definition column_max (a : ndarray2) (j : nat) (v : Q) : Prop :=
  (exists i, i < nrows a /\ (cell a i j == v)%Q) /\
  forall i, i < nrows a -> (cell a i j <= v)%Q.

(** ** Label assigner (lines 137-138 and 152-164) *)

Definition assign_labels (self : AnchorTarget) (m : matches) (n : nat)
  : list Z :=
  let labels := replicate n (-1)%Z in
  let bg := (fun o => Qltb o (_negative_overlap self)) <$> max_overlaps m in
  let labels :=
    if negb (_clobber_positives self) then assign_mask bg 0%Z labels
    else labels in
  let labels := assign_inds (gt_argmax_overlaps m) 1%Z labels in
  let fg := (fun o => Qgeb o (_positive_overlap self)) <$> max_overlaps m in
  let labels := assign_mask fg 1%Z labels in
  if _clobber_positives self then assign_mask bg 0%Z labels
  else labels.

(** Lines 142-164 on a given overlap matrix: the labels before sampling. *)
Definition label_stage (self : AnchorTarget) (overlaps : ndarray2)
  : result (matches * list Z) :=
  m ← overlap_matcher overlaps;
  Ok (m, assign_labels self m (nrows overlaps)).

(** ** Balanced sampler (lines 166-180) *)

(** [int(x)] on a float: truncation towards zero. *)
Definition py_int (x : Q) : Z := Z.quot (Qnum x) (Zpos (Qden x)).

Definition labels_eq (v : Z) (labels : list Z) : list bool :=
  (fun l => Z.eqb l v) <$> labels.

Section Sampler.
(** The state of the global generator behind [np.random], and the draw
    made by [np.random.choice(a, size=k, replace=False)] from it. *)
Context {rng : Type}.
Variable choice : rng -> list nat -> nat -> list nat * rng.

Definition np_random_choice (g : rng) (a : list nat) (size : Z)
  : result (list nat * rng) :=
  if (size <? 0)%Z then
    Raise (ValueError "negative dimensions are not allowed")
  else if (Z.of_nat (length a) <? size)%Z then
    Raise (ValueError "Cannot take a larger sample than population")
  else Ok (choice g a (Z.to_nat size)).

(** One subsampling pass: demote the excess of the anchors labelled [v]
    over [target] to -1. *)
Definition disable_excess (v : Z) (target : Z) (labels : list Z) (g : rng)
  : result (list Z * rng) :=
  let inds := np_where (labels_eq v labels) in
  if (target <? Z.of_nat (length inds))%Z then
    '(disable_inds, g') ←
      np_random_choice g inds (Z.of_nat (length inds) - target)%Z;
    Ok (assign_inds disable_inds (-1)%Z labels, g')
  else Ok (labels, g).

Definition subsample (self : AnchorTarget) (labels : list Z) (g : rng)
  : result (list Z * rng) :=
  let num_fg :=
    py_int (_foreground_fraction self * inject_Z (_batch_size self)) in
  '(labels, g) ← disable_excess 1%Z num_fg labels g;
  let num_bg := (_batch_size self - Z.of_nat (count_eq 1%Z labels))%Z in
  disable_excess 0%Z num_bg labels g.
End Sampler.

(** ** Target encoder (lines 182-201) *)

(** [gt_boxes[inds, :]]. *)
Definition take_rows (gt_boxes : list gt_box) (inds : list nat)
  : result (list gt_box) :=
  mapM (fun k =>
          match gt_boxes !! k with
          | Some b => Ok b
          | None => Raise (IndexError "index is out of bounds for axis 0")
          end) inds.

(** [_compute_targets]: its three shape assertions hold by the types of
    the arguments whenever the two arrays have the same number of rows,
    which [take_rows] guarantees at the only call.  [bbox_transform] is
    imported from [utils.bbox_transform] and encodes each (box, ground
    truth) pair on its own. *)
Definition _compute_targets (bbox_transform : vec4 -> vec4 -> vec4)
    (boxes : list vec4) (groundtruth_boxes : list gt_box) : list vec4 :=
  zip_with bbox_transform boxes (fst <$> groundtruth_boxes).

Definition inside_weights (self : AnchorTarget) (labels : list Z)
  : list vec4 :=
  assign_mask (labels_eq 1%Z labels) (_bbox_inside_weights self)
    (replicate (length labels) zero4).

Definition outside_weights (labels : list Z) : list vec4 :=
  let num_examples := count_ge0 labels + 1 in
  let w := (1 / inject_Z (Z.of_nat num_examples))%Q in
  let positive_weights : vec4 := (w, w, w, w) in
  let negative_weights : vec4 := (w, w, w, w) in
  let out := replicate (length labels) zero4 in
  let out := assign_mask (labels_eq 1%Z labels) positive_weights out in
  assign_mask (labels_eq 0%Z labels) negative_weights out.

(** The four per-inside-anchor arrays before unmapping. *)
Record targets : Type := {
  labels_of : list Z;
  bbox_targets_of : list vec4;
  bbox_inside_weights_of : list vec4;
  bbox_outside_weights_of : list vec4
}.

Section Core.
Context {rng : Type}.
Variable choice : rng -> list nat -> nat -> list nat * rng.
Variable bbox_overlaps : list vec4 -> list gt_box -> list (list Q).
Variable bbox_transform : vec4 -> vec4 -> vec4.

(** Lines 137-201 on the inside anchors. *)
Definition anchor_targets (self : AnchorTarget) (anchors : list vec4)
    (gt_boxes : list gt_box) (g : rng) : result (targets * rng) :=
  let overlaps :=
    {| nrows := length anchors;
       ncols := length gt_boxes;
       rows := bbox_overlaps anchors gt_boxes |} in
  '(m, labels) ← label_stage self overlaps;
  '(labels, g) ← subsample choice self labels g;
  matched ← take_rows gt_boxes (argmax_overlaps m);
  let bbox_targets := _compute_targets bbox_transform anchors matched in
  Ok ({| labels_of := labels;
         bbox_targets_of := bbox_targets;
         bbox_inside_weights_of := inside_weights self labels;
         bbox_outside_weights_of := outside_weights labels |}, g).
End Core.

(** ** Names visible from the function body *)

Inductive pyobj : Type :=
  | PyModule (name : string)
  | PyFunction (name : string)
  | PyClass (name : string)
  | PyStr (s : string)
  | PyBuiltin (name : string)
  | PyArray (v : list Q).

(** The global namespace of the module [frcnn/anchor.py] once it is
    imported: its three module imports, its three function imports, the
    class it defines and the attributes every module has. *)
Definition module_globals : gmap string pyobj :=
  list_to_map
    [("snt", PyModule "sonnet");
     ("tf", PyModule "tensorflow");
     ("np", PyModule "numpy");
     ("generate_anchors", PyFunction "utils.generate_anchors.generate_anchors");
     ("bbox_overlaps", PyFunction "utils.cython_bbox.bbox_overlaps");
     ("bbox_transform", PyFunction "utils.bbox_transform.bbox_transform");
     ("AnchorTarget", PyClass "AnchorTarget");
     ("__name__", PyStr "frcnn.anchor");
     ("__doc__", PyStr "");
     ("__file__", PyStr "frcnn/anchor.py");
     ("__package__", PyStr "frcnn");
     ("__builtins__", PyModule "builtins")]%string.

(** The names of Python's builtin namespace. *)
Definition builtin_names : list string :=
  ["abs"; "all"; "any"; "ascii"; "bin"; "bool"; "bytearray"; "bytes";
   "callable"; "chr"; "classmethod"; "compile"; "complex"; "delattr";
   "dict"; "dir"; "divmod"; "enumerate"; "eval"; "exec"; "filter";
   "float"; "format"; "frozenset"; "getattr"; "globals"; "hasattr";
   "hash"; "help"; "hex"; "id"; "input"; "int"; "isinstance";
   "issubclass"; "iter"; "len"; "list"; "locals"; "map"; "max";
   "memoryview"; "min"; "next"; "object"; "oct"; "open"; "ord"; "pow";
   "print"; "property"; "range"; "repr"; "reversed"; "round"; "set";
   "setattr"; "slice"; "sorted"; "staticmethod"; "str"; "sum"; "super";
   "tuple"; "type"; "vars"; "zip"; "__import__"; "None"; "True"; "False";
   "NotImplemented"; "Ellipsis"; "Exception"; "NameError"; "ValueError";
   "TypeError"; "IndexError"; "AssertionError"; "KeyError";
   "apply"; "basestring"; "buffer"; "cmp"; "coerce"; "execfile"; "file";
   "intern"; "long"; "raw_input"; "reduce"; "reload"; "unichr";
   "unicode"; "xrange"]%string.

(** Loading a name that the function body never assigns: the module's
    globals, then the builtins, else [NameError]. *)
Definition load_global (G : gmap string pyobj) (name : string)
  : result pyobj :=
  match G !! name with
  | Some o => Ok o
  | None =>
      if bool_decide (name ∈ builtin_names) then Ok (PyBuiltin name)
      else Raise (NameError name)
  end.

(** [o[i]] for a loaded object. *)
Definition py_getitem (o : pyobj) (i : nat) : result Q :=
  match o with
  | PyArray v =>
      match v !! i with
      | Some x => Ok x
      | None => Raise (IndexError "index out of range")
      end
  | _ => Raise (TypeError "object is not subscriptable")
  end.

(** ** Anchor grid (lines 97-124) *)

(** [height, width = shape[1:3]]. *)
Definition unpack_height_width (shape : list nat) : result (nat * nat) :=
  match take 2 (drop 1 shape) with
  | [h; w] => Ok (h, w)
  | _ => Raise (ValueError "not enough values to unpack")
  end.

(** [np.arange(0, n) * stride] with numpy's broadcasting of two vectors. *)
Definition arange_times (n : nat) (stride : list Z) : result (list Z) :=
  let r := Z.of_nat <$> seq 0 n in
  if n =? length stride then Ok (zip_with Z.mul r stride)
  else if length stride =? 1 then Ok ((fun x => x * hd 0 stride)%Z <$> r)
  else if n =? 1 then Ok ((fun s => 0 * s)%Z <$> stride)
  else Raise (ValueError "operands could not be broadcast together").

(** [np.meshgrid], [np.vstack] of the four ravelled grids and the
    transposition: one shift row per cell, rows first. *)
Definition grid_shifts (shift_x shift_y : list Z) : list vec4 :=
  sy ← shift_y;
  sx ← shift_x;
  [(inject_Z sx, inject_Z sy, inject_Z sx, inject_Z sy)].

Definition shift_box (s a : vec4) : vec4 :=
  let '(sx1, sy1, sx2, sy2) := s in
  let '(ax1, ay1, ax2, ay2) := a in
  (ax1 + sx1, ay1 + sy1, ax2 + sx2, ay2 + sy2)%Q.

(** The [(K, A, 4)] sum reshaped to [(K * A, 4)]. *)
Definition shifted_anchors (anchors shifts : list vec4) : list vec4 :=
  s ← shifts;
  a ← anchors;
  [shift_box s a].

Record grid : Type := {
  grid_height : nat;
  grid_width : nat;
  all_anchors : list vec4;
  total_anchors : nat
}.

Definition anchor_grid (self : AnchorTarget) (shape : list nat)
  : result grid :=
  '(height, width) ← unpack_height_width shape;
  shift_x ← arange_times width (_feat_stride self);
  shift_y ← arange_times height (_feat_stride self);
  let shifts := grid_shifts shift_x shift_y in
  let A := _num_anchors self in
  let K := length shifts in
  if negb (length (_anchors self) =? A) then
    Raise (ValueError "cannot reshape array")
  else
  Ok {| grid_height := height;
        grid_width := width;
        all_anchors := shifted_anchors (_anchors self) shifts;
        total_anchors := K * A |}.

(** ** Inside filter (lines 127-135) *)

(** The first two comparisons are evaluated before [im_info] is loaded;
    they cannot fail.  [im_info] is not a parameter, not assigned in the
    body and not an attribute: it is looked up as a global. *)
Definition inside_filter (G : gmap string pyobj) (self : AnchorTarget)
    (all : list vec4) : result (list nat) :=
  let border := _allowed_border self in
  let c0 := (fun '(x1, _, _, _) => Qgeb x1 (- border)) <$> all in
  let c1 := (fun '(_, y1, _, _) => Qgeb y1 (- border)) <$> all in
  im_info ← load_global G "im_info";
  w ← py_getitem im_info 1;
  let c2 := (fun '(_, _, x2, _) => Qltb x2 (w + border)) <$> all in
  im_info ← load_global G "im_info";
  h ← py_getitem im_info 0;
  let c3 := (fun '(_, _, _, y2) => Qltb y2 (h + border)) <$> all in
  Ok (np_where
        (zip_with andb (zip_with andb (zip_with andb c0 c1) c2) c3)).

(** [all_anchors[inds, :]]. *)
Definition select_rows (all : list vec4) (inds : list nat) : list vec4 :=
  omap (fun i => all !! i) inds.

(** ** Unmapping (lines 203-210 and the method at 258-273) *)

(** The rows that [ret[inds] = data] writes: [data] itself when it has one
    row per index, a single row broadcast to every index, and a shape
    mismatch otherwise. *)
Definition broadcast_rows {A : Type} (data : list A) (n : nat)
  : option (list A) :=
  if length data =? n then Some data
  else match data with
       | [x] => Some (replicate n x)
       | _ => None
       end.

(** The method [AnchorTarget._unmap]; both of its branches scatter the
    rows of [data] to the positions [inds] of an array of [count] rows
    filled with [fill], and a later write to a position wins. *)
Definition _unmap {A : Type} (data : list A) (count : nat) (inds : list nat)
    (fill : A) : result (list A) :=
  match broadcast_rows data (length inds) with
  | None => Raise (ValueError "shape mismatch")
  | Some rows =>
      if negb (forallb (fun i => i <? count) inds) then
        Raise (IndexError "index is out of bounds for axis 0")
      else
        Ok (foldl (fun acc '(i, x) => <[i:=x]> acc) (replicate count fill)
              (zip inds rows))
  end.

(** The test of lines 128-131 on one anchor, for an image of width [w]
    and height [h]. *)
Definition inside_image (border w h : Q) (box : vec4) : Prop :=
  let '(x1, y1, x2, y2) := box in
  (- border <= x1 /\ - border <= y1 /\
   x2 < w + border /\ y2 < h + border)%Q.

(** The three values a label can take. *)
Definition ternary (l : Z) : Prop := l = (-1)%Z \/ l = 0%Z \/ l = 1%Z.

(** When numpy can multiply a vector of [n] entries by one of [l]. *)
Definition broadcastable (n l : nat) : Prop := n = l \/ l = 1 \/ n = 1.

(** [reshape((1, H, W, C)).transpose(0, 3, 1, 2)] of a flat array, again
    flat in row-major order. *)
Definition to_channels_first {A : Type} (H W C : nat) (d : A) (flat : list A)
  : result (list A) :=
  if negb (length flat =? H * W * C) then
    Raise (ValueError "cannot reshape array")
  else
    Ok (c ← seq 0 C; h ← seq 0 H; w ← seq 0 W;
        [nth ((h * W + w) * C + c) flat d]).

Definition flatten4 (l : list vec4) : list Q :=
  '(a, b, c, d) ← l; [a; b; c; d].

Record outputs : Type := {
  out_labels : list Z;
  out_bbox_targets : list Q;
  out_bbox_inside_weights : list Q;
  out_bbox_outside_weights : list Q
}.

(** ** The whole function (lines 92-231) *)

Section Layer.
Context {rng : Type}.
Variable choice : rng -> list nat -> nat -> list nat * rng.
Variable bbox_overlaps : list vec4 -> list gt_box -> list (list Q).
Variable bbox_transform : vec4 -> vec4 -> vec4.
(** What calling an object found under the free name [_unmap] does, for
    whatever object a namespace binds to it. *)
Variable py_call_unmap :
  forall A : Type, pyobj -> list A -> nat -> list nat -> A -> result (list A).

(** Lines 203-210: [_unmap] is loaded as a global at each of the four
    calls. *)
Definition unmap_step (G : gmap string pyobj) (t : targets)
    (total : nat) (inds_inside : list nat)
  : result (list Z * list vec4 * list vec4 * list vec4) :=
  f ← load_global G "_unmap";
  labels ← py_call_unmap Z f (labels_of t) total inds_inside (-1)%Z;
  f ← load_global G "_unmap";
  bt ← py_call_unmap vec4 f (bbox_targets_of t) total inds_inside zero4;
  f ← load_global G "_unmap";
  iw ← py_call_unmap vec4 f (bbox_inside_weights_of t) total inds_inside
         zero4;
  f ← load_global G "_unmap";
  ow ← py_call_unmap vec4 f (bbox_outside_weights_of t) total inds_inside
         zero4;
  Ok (labels, bt, iw, ow).

Definition _anchor_target_layer_np (G : gmap string pyobj)
    (self : AnchorTarget) (rpn_cls_score_shape : list nat)
    (gt_boxes : list gt_box) (g : rng) : result (outputs * rng) :=
  gr ← anchor_grid self rpn_cls_score_shape;
  inds_inside ← inside_filter G self (all_anchors gr);
  let anchors := select_rows (all_anchors gr) inds_inside in
  '(t, g) ← anchor_targets choice bbox_overlaps bbox_transform self
              anchors gt_boxes g;
  '(labels, bt, iw, ow) ←
    unmap_step G t (total_anchors gr) inds_inside;
  let H := grid_height gr in
  let W := grid_width gr in
  let A := _num_anchors self in
  labels ← to_channels_first H W A 0%Z labels;
  bt ← to_channels_first H W (A * 4) 0%Q (flatten4 bt);
  iw ← to_channels_first H W (A * 4) 0%Q (flatten4 iw);
  ow ← to_channels_first H W (A * 4) 0%Q (flatten4 ow);
  Ok ({| out_labels := labels;
         out_bbox_targets := bt;
         out_bbox_inside_weights := iw;
         out_bbox_outside_weights := ow |}, g).
End Layer.

(** ** The contract of the random draw *)

(** [np.random.choice(a, size=k, replace=False)] returns [k] entries of
    [a] taken at distinct positions: a prefix of a permutation of [a]. *)
Definition sample_without_replacement {rng : Type}
    (choice : rng -> list nat -> nat -> list nat * rng) : Prop :=
  forall g a k, k <= length a ->
    length (choice g a k).1 = k /\
    exists rest, a ≡ₚ (choice g a k).1 ++ rest.


(** ** Instances used to run the model *)

(** The draw that takes the first [k] entries, on a generator without
    state. *)
Definition first_k (g : unit) (a : list nat) (k : nat) : list nat * unit :=
  (take k a, g).

(** The single template [(0, 0, 15, 15)]. *)
Definition one_template (ratios scales : list Q) : list vec4 :=
  [(0, 0, 15, 15)%Q].

Definition default_labeler : AnchorTarget :=
  __init__ one_template [8%Q] [1%Q] [16%Z].

(** Modelled from the spec: [utils.cython_bbox.bbox_overlaps] is not part
    of the sources at hand.  Intersection over union of an anchor and a
    ground-truth box, intersection-area / (area_a + area_b -
    intersection-area), with inclusive pixel coordinates (width
    [x2 - x1 + 1]); 0 when the boxes do not meet. *)
Definition iou (a : vec4) (b : gt_box) : Q :=
  let '(ax1, ay1, ax2, ay2) := a in
  let '(bx1, by1, bx2, by2) := b.1 in
  let iw := (Qmin ax2 bx2 - Qmax ax1 bx1 + 1)%Q in
  let ih := (Qmin ay2 by2 - Qmax ay1 by1 + 1)%Q in
  if Qltb 0 iw && Qltb 0 ih then
    let inter := (iw * ih)%Q in
    let area_a := ((ax2 - ax1 + 1) * (ay2 - ay1 + 1))%Q in
    let area_b := ((bx2 - bx1 + 1) * (by2 - by1 + 1))%Q in
    Qred (inter / (area_a + area_b - inter))
  else 0%Q.

Definition iou_matrix (anchors : list vec4) (gt_boxes : list gt_box)
  : list (list Q) :=
  (fun a => iou a <$> gt_boxes) <$> anchors.

(** Modelled from the spec: [utils.bbox_transform.bbox_transform] is not
    part of the sources at hand.  The specification asks of the box-delta
    encoding that an anchor identical to its ground truth encodes to
    [(0, 0, 0, 0)] and that the ground truth can be decoded back from the
    target; so a zero target arises only for a ground truth equal to the
    anchor. *)
Definition vec4_eq (a b : vec4) : Prop :=
  let '(a1, a2, a3, a4) := a in
  let '(b1, b2, b3, b4) := b in
  (a1 == b1 /\ a2 == b2 /\ a3 == b3 /\ a4 == b4)%Q.

Definition encoder_faithful (bbox_transform : vec4 -> vec4 -> vec4) : Prop :=
  forall a g, bbox_transform a g = zero4 -> vec4_eq g a.

(** An encoder of that kind, used to run the model: the offsets of the
    four corners. *)
Definition corner_offsets (a g : vec4) : vec4 :=
  let '(a1, a2, a3, a4) := a in
  let '(g1, g2, g3, g4) := g in
  (Qred (g1 - a1), Qred (g2 - a2), Qred (g3 - a3), Qred (g4 - a4)).

(** Attribute assignment on a constructed labeler:
    [self._positive_overlap = pos; self._negative_overlap = neg]. *)
Definition set_overlaps (self : AnchorTarget) (pos neg : Q) : AnchorTarget :=
  {| _anchor_scales := _anchor_scales self;
     _anchor_ratios := _anchor_ratios self;
     _anchors := _anchors self;
     _num_anchors := _num_anchors self;
     _feat_stride := _feat_stride self;
     _allowed_border := _allowed_border self;
     _clobber_positives := _clobber_positives self;
     _positive_overlap := pos;
     _negative_overlap := neg;
     _foreground_fraction := _foreground_fraction self;
     _batch_size := _batch_size self;
     _bbox_inside_weights := _bbox_inside_weights self |}.

(** [self._clobber_positives = b]. *)
Definition set_clobber (self : AnchorTarget) (b : bool) : AnchorTarget :=
  {| _anchor_scales := _anchor_scales self;
     _anchor_ratios := _anchor_ratios self;
     _anchors := _anchors self;
     _num_anchors := _num_anchors self;
     _feat_stride := _feat_stride self;
     _allowed_border := _allowed_border self;
     _clobber_positives := b;
     _positive_overlap := _positive_overlap self;
     _negative_overlap := _negative_overlap self;
     _foreground_fraction := _foreground_fraction self;
     _batch_size := _batch_size self;
     _bbox_inside_weights := _bbox_inside_weights self |}.

(** [self._batch_size = n]. *)
Definition set_batch_size (self : AnchorTarget) (n : Z) : AnchorTarget :=
  {| _anchor_scales := _anchor_scales self;
     _anchor_ratios := _anchor_ratios self;
     _anchors := _anchors self;
     _num_anchors := _num_anchors self;
     _feat_stride := _feat_stride self;
     _allowed_border := _allowed_border self;
     _clobber_positives := _clobber_positives self;
     _positive_overlap := _positive_overlap self;
     _negative_overlap := _negative_overlap self;
     _foreground_fraction := _foreground_fraction self;
     _batch_size := n;
     _bbox_inside_weights := _bbox_inside_weights self |}.

(** A generator with a counter as its state: a draw rotates the
    population by the counter, takes the first [k] entries and advances
    the counter. *)
Definition rotating_choice (g : nat) (a : list nat) (k : nat)
  : list nat * nat :=
  (take k (rotate g a), S g).

(** Two anchors side by side and one ground-truth box on the first. *)
Definition two_anchors : list vec4 :=
  [(0, 0, 15, 15)%Q; (16, 0, 31, 15)%Q].

Definition one_gt_box : list gt_box := [((0, 0, 15, 15)%Q, 1%Q)].

(** A [3 x 2] overlap matrix: the first column has a tie at its maximum,
    the second is zero on every anchor. *)
Definition tied_overlaps : ndarray2 :=
  {| nrows := 3; ncols := 2;
     rows := [[1 # 10; 0]; [1 # 10; 0]; [1 # 20; 0]]%Q |}.

(** A call that rejects whatever object it is given. *)
Definition not_callable (A : Type) (o : pyobj) (data : list A) (count : nat)
    (inds : list nat) (fill : A) : result (list A) :=
  Raise (TypeError "object is not callable").

(** ** Two invocations *)


(** * Properties *)

(** ** Comparisons *)

Lemma Qltb_lt (a b : Q) : Qltb a b = true <-> (a < b)%Q.
Proof.
  unfold Qltb. rewrite negb_true_iff. split.
  - intros H. apply Qnot_le_lt. intros Hle.
    apply Qle_bool_iff in Hle. congruence.
  - intros H. destruct (Qle_bool b a) eqn:E; [|reflexivity].
    apply Qle_bool_iff in E. exfalso. exact (Qlt_not_le _ _ H E).
Qed.

Lemma Qltb_ge (a b : Q) : Qltb a b = false <-> (b <= a)%Q.
Proof.
  unfold Qltb. rewrite negb_false_iff. apply Qle_bool_iff.
Qed.

(** ** [argmax] returns a position of the maximum *)

Lemma argmax_from_spec (pre rest : list Q) (best : nat) (bv : Q) :
  pre !! best = Some bv ->
  Forall (fun x => (x <= bv)%Q) pre ->
  let r := argmax_from best bv (length pre) rest in
  exists v, (pre ++ rest) !! r = Some v /\
            Forall (fun x => (x <= v)%Q) (pre ++ rest).
Proof.
  revert pre best bv. induction rest as [|x t IH]; intros pre best bv Hb Hle.
  - simpl. exists bv. rewrite app_nil_r. auto.
  - simpl. destruct (Qltb bv x) eqn:E.
    + apply Qltb_lt in E.
      specialize (IH (pre ++ [x]) (length pre) x).
      rewrite length_app in IH. simpl in IH.
      replace (length pre + 1) with (S (length pre)) in IH by lia.
      rewrite <- app_assoc in IH. simpl in IH. apply IH.
      * rewrite lookup_app_r by lia. by rewrite Nat.sub_diag.
      * apply Forall_app. split.
        -- eapply Forall_impl; [exact Hle|]. intros y Hy. simpl in Hy.
           apply Qlt_le_weak in E. eapply Qle_trans; eauto.
        -- constructor; [apply Qle_refl|constructor].
    + apply Qltb_ge in E.
      specialize (IH (pre ++ [x]) best bv).
      rewrite length_app in IH. simpl in IH.
      replace (length pre + 1) with (S (length pre)) in IH by lia.
      rewrite <- app_assoc in IH. simpl in IH. apply IH.
      * apply lookup_app_l_Some. exact Hb.
      * apply Forall_app. split; [exact Hle|].
        constructor; [exact E|constructor].
Qed.

Lemma argmax_spec (l : list Q) :
  l <> [] ->
  exists v, l !! argmax l = Some v /\ Forall (fun x => (x <= v)%Q) l.
Proof.
  destruct l as [|x t]; [congruence|]. intros _.
  unfold argmax.
  apply (argmax_from_spec [x] t 0 x); [reflexivity|].
  constructor; [apply Qle_refl|constructor].
Qed.

(** ** Shape facts *)

Lemma length_column (j : nat) (a : ndarray2) :
  length (column j a) = length (rows a).
Proof. unfold column. by rewrite length_fmap. Qed.

Lemma lookup_column (j i : nat) (a : ndarray2) :
  i < length (rows a) -> column j a !! i = Some (cell a i j).
Proof.
  intros Hi. unfold column, cell. rewrite list_lookup_fmap.
  destruct (lookup_lt_is_Some_2 (rows a) i Hi) as [r Hr].
  rewrite Hr. simpl. by rewrite (nth_lookup_Some _ _ _ _ Hr).
Qed.

Lemma lookup_cell (a : ndarray2) (i j : nat) (r : list Q) (x : Q) :
  rows a !! i = Some r -> r !! j = Some x -> cell a i j = x.
Proof.
  intros Hr Hx. unfold cell.
  rewrite (nth_lookup_Some _ _ _ _ Hr). by apply nth_lookup_Some.
Qed.

(** ** Indices returned by [np.where] *)

Lemma elem_of_where_from (k i : nat) (mask : list bool) :
  i ∈ where_from k mask <-> exists i', i = k + i' /\ mask !! i' = Some true.
Proof.
  revert k. induction mask as [|b t IH]; intros k; simpl.
  - split; [by intros ?%elem_of_nil|by intros (?&_&?)].
  - destruct b.
    + rewrite elem_of_cons, IH. split.
      * intros [->|(i'&->&H)]; [exists 0|exists (S i')]; split; auto; lia.
      * intros ([|i']&->&H); [left; lia|right; exists i'; split; auto; lia].
    + rewrite IH. split.
      * intros (i'&->&H). exists (S i'). split; auto; lia.
      * intros ([|i']&->&H); [done|exists i'; split; auto; lia].
Qed.

Lemma elem_of_np_where (i : nat) (mask : list bool) :
  i ∈ np_where mask <-> mask !! i = Some true.
Proof.
  unfold np_where. rewrite elem_of_where_from. split.
  - by intros (i'&->&H).
  - intros H. by exists i.
Qed.

Lemma elem_of_where_rows_from (k i : nat) (rs : list (list Q)) (v : list Q) :
  i ∈ where_rows_from k rs v <->
  exists i' r j x y,
    i = k + i' /\ rs !! i' = Some r /\ r !! j = Some x /\ v !! j = Some y /\
    (x == y)%Q.
Proof.
  revert k. induction rs as [|r t IH]; intros k; simpl.
  - split; [by intros ?%elem_of_nil|by intros (?&?&?&?&?&_&?&_)].
  - rewrite elem_of_app, IH, list_elem_of_fmap. split.
    + intros [(j&->&Hj)|(i'&r'&j&x&y&->&Hr&Hx&Hy&E)].
      * apply elem_of_np_where in Hj.
        apply lookup_zip_with_Some in Hj as (x&y&E&Hx&Hy).
        symmetry in E. apply Qeq_bool_iff in E.
        exists 0, r, j, x, y. repeat split; auto; lia.
      * exists (S i'), r', j, x, y. repeat split; auto; lia.
    + intros ([|i']&r'&j&x&y&->&Hr&Hx&Hy&E); simpl in Hr.
      * left. injection Hr as <-. exists j. split; [lia|].
        apply elem_of_np_where, lookup_zip_with_Some.
        exists x, y. split; [|done]. symmetry. by apply Qeq_bool_iff.
      * right. exists i', r', j, x, y. repeat split; auto; lia.
Qed.

(** ** The overlap matcher *)

Lemma overlap_matcher_ok (a : ndarray2) :
  0 < nrows a -> 0 < ncols a ->
  overlap_matcher a =
  Ok {| argmax_overlaps := argmax <$> rows a;
        max_overlaps :=
          zip_with (fun r k => nth k r 0%Q) (rows a) (argmax <$> rows a);
        gt_max_overlaps :=
          zip_with (fun i j => cell a i j)
            ((fun j => argmax (column j a)) <$> seq 0 (ncols a))
            (seq 0 (ncols a));
        gt_argmax_overlaps :=
          where_eq_rows a
            (zip_with (fun i j => cell a i j)
               ((fun j => argmax (column j a)) <$> seq 0 (ncols a))
               (seq 0 (ncols a))) |}.
Proof.
  intros Hn Hm. unfold overlap_matcher, argmax_axis1, argmax_axis0.
  destruct (Nat.eqb_spec (ncols a) 0) as [?|_]; [lia|].
  destruct (Nat.eqb_spec (nrows a) 0) as [?|_]; [lia|].
  reflexivity.
Qed.

Lemma lookup_gt_max (a : ndarray2) (j : nat) (y : Q) :
  zip_with (fun i j => cell a i j)
    ((fun j => argmax (column j a)) <$> seq 0 (ncols a))
    (seq 0 (ncols a)) !! j = Some y <->
  j < ncols a /\ y = cell a (argmax (column j a)) j.
Proof.
  rewrite lookup_zip_with_Some. split.
  - intros (i&j'&->&Hi&Hj).
    apply lookup_seq in Hj as [-> Hj]. simpl.
    rewrite list_lookup_fmap, lookup_seq_lt in Hi by done.
    simpl in Hi. injection Hi as <-. done.
  - intros [Hj ->]. exists (argmax (column j a)), j.
    split; [done|]. split.
    + by rewrite list_lookup_fmap, lookup_seq_lt.
    + by rewrite lookup_seq_lt.
Qed.

Lemma gt_max_is_column_max (a : ndarray2) (j : nat) :
  well_shaped a -> 0 < nrows a ->
  column_max a j (cell a (argmax (column j a)) j).
Proof.
  intros [Hlen _] Hn.
  destruct (argmax_spec (column j a)) as (v&Hv&Hall).
  { intros E. apply (f_equal length) in E.
    rewrite length_column, Hlen in E. simpl in E. lia. }
  assert (Hlt : argmax (column j a) < length (rows a)).
  { apply lookup_lt_Some in Hv. by rewrite length_column in Hv. }
  rewrite lookup_column in Hv by done. injection Hv as Hv.
  split.
  - exists (argmax (column j a)). split; [lia|reflexivity].
  - intros i Hi. rewrite Hv.
    rewrite Forall_lookup in Hall. apply (Hall i).
    apply lookup_column. lia.
Qed.

Lemma column_max_unique (a : ndarray2) (j : nat) (v w : Q) :
  column_max a j v -> column_max a j w -> (v == w)%Q.
Proof.
  intros [(i&Hi&Ei) Hv] [(k&Hk&Ek) Hw].
  apply Qle_antisym.
  - rewrite <- Ei. by apply Hw.
  - rewrite <- Ek. by apply Hv.
Qed.

Lemma column_max_proper (a : ndarray2) (j : nat) (v w : Q) :
  (v == w)%Q -> column_max a j v -> column_max a j w.
Proof.
  intros E [(i&Hi&Ei) Hv]. split.
  - exists i. split; [done|]. by rewrite Ei.
  - intros k Hk. rewrite <- E. by apply Hv.
Qed.

Lemma elem_of_gt_argmax (a : ndarray2) (i : nat) :
  well_shaped a -> 0 < nrows a ->
  i ∈ where_eq_rows a
        (zip_with (fun i j => cell a i j)
           ((fun j => argmax (column j a)) <$> seq 0 (ncols a))
           (seq 0 (ncols a))) <->
  i < nrows a /\ exists j, j < ncols a /\ column_max a j (cell a i j).
Proof.
  intros Hws Hn. pose proof Hws as [Hlen Hrows].
  unfold where_eq_rows. rewrite elem_of_where_rows_from. split.
  - intros (i'&r&j&x&y&->&Hr&Hx&Hy&E). simpl.
    apply lookup_gt_max in Hy as [Hj ->].
    split; [apply lookup_lt_Some in Hr; lia|].
    exists j. split; [done|].
    rewrite (lookup_cell a i' j r x Hr Hx).
    eapply column_max_proper; [symmetry; exact E|].
    by apply gt_max_is_column_max.
  - intros (Hi&j&Hj&Hmax).
    destruct (lookup_lt_is_Some_2 (rows a) i) as [r Hr]; [lia|].
    assert (Hrl : length r = ncols a).
    { rewrite Forall_lookup in Hrows. by apply (Hrows i). }
    destruct (lookup_lt_is_Some_2 r j) as [x Hx]; [lia|].
    exists i, r, j, x, (cell a (argmax (column j a)) j).
    split; [done|]. split; [done|]. split; [done|]. split.
    + by apply lookup_gt_max.
    + rewrite <- (lookup_cell a i j r x Hr Hx).
      eapply column_max_unique; [exact Hmax|].
      by apply gt_max_is_column_max.
Qed.


(** ** Masked and indexed assignment *)

Lemma length_assign_mask {A : Type} (mask : list bool) (v : A) (l : list A) :
  length mask = length l -> length (assign_mask mask v l) = length l.
Proof. intros H. unfold assign_mask. rewrite length_zip_with. lia. Qed.

Lemma lookup_assign_mask {A : Type} (mask : list bool) (v : A) (l : list A)
    (i : nat) (b : bool) (x : A) :
  mask !! i = Some b -> l !! i = Some x ->
  assign_mask mask v l !! i = Some (if b then v else x).
Proof.
  intros Hb Hx. unfold assign_mask. apply lookup_zip_with_Some. eauto.
Qed.

Lemma length_assign_inds {A : Type} (inds : list nat) (v : A) (l : list A) :
  length (assign_inds inds v l) = length l.
Proof.
  unfold assign_inds. revert l.
  induction inds as [|i t IH]; intros l; simpl; [done|].
  by rewrite IH, length_insert.
Qed.

Lemma lookup_assign_inds_keep {A : Type} (inds : list nat) (v : A)
    (l : list A) (i : nat) :
  i ∈ inds \/ l !! i = Some v -> i < length l ->
  assign_inds inds v l !! i = Some v.
Proof.
  unfold assign_inds. revert l.
  induction inds as [|k t IH]; intros l Hin Hlt; simpl.
  - destruct Hin as [Hin|Hin]; [by apply elem_of_nil in Hin|done].
  - apply IH; [|by rewrite length_insert].
    destruct (decide (i = k)) as [->|Hne].
    + right. by apply list_lookup_insert_eq.
    + destruct Hin as [Hin|Hin].
      * apply elem_of_cons in Hin as [?|?]; [done|by left].
      * right. by rewrite list_lookup_insert_ne.
Qed.

Lemma lookup_assign_inds_elem {A : Type} (inds : list nat) (v : A)
    (l : list A) (i : nat) :
  i ∈ inds -> i < length l -> assign_inds inds v l !! i = Some v.
Proof. intros Hin. apply lookup_assign_inds_keep. by left. Qed.

Lemma lookup_assign_inds_other {A : Type} (inds : list nat) (v : A)
    (l : list A) (i : nat) :
  i ∉ inds -> assign_inds inds v l !! i = l !! i.
Proof.
  unfold assign_inds. revert l.
  induction inds as [|k t IH]; intros l Hin; simpl; [done|].
  apply not_elem_of_cons in Hin as [Hne Ht].
  rewrite IH by done. by apply list_lookup_insert_ne.
Qed.

Lemma lookup_assign_inds_cases {A : Type} (inds : list nat) (v : A)
    (l : list A) (i : nat) :
  assign_inds inds v l !! i = l !! i \/ assign_inds inds v l !! i = Some v.
Proof.
  destruct (decide (i ∈ inds)) as [Hin|Hin].
  - destruct (decide (i < length l)) as [Hlt|Hge].
    + right. by apply lookup_assign_inds_elem.
    + left. rewrite !lookup_ge_None_2; [done|lia|].
      rewrite length_assign_inds. lia.
  - left. by apply lookup_assign_inds_other.
Qed.

(** ** The label assigner *)

Lemma length_max_overlaps (a : ndarray2) :
  length (zip_with (fun r k => nth k r 0%Q) (rows a) (argmax <$> rows a))
  = length (rows a).
Proof. rewrite length_zip_with, length_fmap. lia. Qed.

Lemma label_stage_ok (self : AnchorTarget) (a : ndarray2) :
  0 < nrows a -> 0 < ncols a ->
  exists m,
    overlap_matcher a = Ok m /\
    label_stage self a = Ok (m, assign_labels self m (nrows a)) /\
    length (max_overlaps m) = length (rows a) /\
    gt_argmax_overlaps m =
      where_eq_rows a
        (zip_with (fun i j => cell a i j)
           ((fun j => argmax (column j a)) <$> seq 0 (ncols a))
           (seq 0 (ncols a))).
Proof.
  intros Hn Hm. eexists. split; [by apply overlap_matcher_ok|].
  unfold label_stage. rewrite overlap_matcher_ok by done. simpl.
  split; [done|]. split; [apply length_max_overlaps|done].
Qed.

Lemma length_assign_labels (self : AnchorTarget) (m : matches) (n : nat) :
  length (max_overlaps m) = n -> length (assign_labels self m n) = n.
Proof.
  intros Hlen. unfold assign_labels.
  destruct (_clobber_positives self); simpl;
    repeat (rewrite ?length_assign_mask, ?length_assign_inds,
              ?length_replicate, ?length_fmap); done.
Qed.

(** Without clobbering, the forced positives survive every later pass. *)
Lemma assign_labels_forced (self : AnchorTarget) (m : matches) (n i : nat) :
  length (max_overlaps m) = n ->
  _clobber_positives self = false ->
  i ∈ gt_argmax_overlaps m -> i < n ->
  assign_labels self m n !! i = Some 1%Z.
Proof.
  intros Hlen Hc Hin Hlt. unfold assign_labels. rewrite Hc. simpl.
  destruct (lookup_lt_is_Some_2 (max_overlaps m) i) as [o Ho]; [lia|].
  rewrite (lookup_assign_mask _ _ _ i (Qgeb o (_positive_overlap self)) 1%Z).
  - by destruct (Qgeb o (_positive_overlap self)).
  - by rewrite list_lookup_fmap, Ho.
  - apply lookup_assign_inds_elem; [done|].
    rewrite length_assign_mask; rewrite ?length_replicate, ?length_fmap; lia.
Qed.

(** With clobbering, the background pass has the last word. *)
Lemma assign_labels_clobbered (self : AnchorTarget) (m : matches) (n i : nat)
    (o : Q) :
  length (max_overlaps m) = n ->
  _clobber_positives self = true ->
  max_overlaps m !! i = Some o -> (o < _negative_overlap self)%Q ->
  assign_labels self m n !! i = Some 0%Z.
Proof.
  intros Hlen Hc Ho Hneg. unfold assign_labels. rewrite Hc. simpl.
  assert (Hlt : i < n) by (apply lookup_lt_Some in Ho; lia).
  destruct (lookup_lt_is_Some_2
              (assign_mask
                 ((fun o => Qgeb o (_positive_overlap self)) <$> max_overlaps m)
                 1%Z (assign_inds (gt_argmax_overlaps m) 1%Z
                        (replicate n (-1)%Z))) i) as [x Hx].
  { rewrite length_assign_mask;
      rewrite ?length_assign_inds, ?length_replicate, ?length_fmap; lia. }
  rewrite (lookup_assign_mask _ _ _ i (Qltb o (_negative_overlap self)) x);
    [|by rewrite list_lookup_fmap, Ho|exact Hx].
  apply Qltb_lt in Hneg. by rewrite Hneg.
Qed.

Lemma gt_argmax_in_range (a : ndarray2) (v : list Q) (i : nat) :
  i ∈ where_eq_rows a v -> i < length (rows a).
Proof.
  unfold where_eq_rows. rewrite elem_of_where_rows_from.
  intros (i'&r&j&x&y&->&Hr&_). apply lookup_lt_Some in Hr. lia.
Qed.

(** C1: the order of the labelling passes.  On an overlap matrix with at
    least one anchor and one ground-truth box, every anchor of
    [gt_argmax_overlaps] (gt_best_anchor) has label 1 before sampling when
    [clobber_positives] is false, whatever its best overlap, because the
    forced-positive pass runs after the background pass; when
    [clobber_positives] is true and its best overlap is below
    [negative_overlap] it has label 0, because the background pass runs
    last. *)
Theorem forced_positive_pass_order (self : AnchorTarget) (a : ndarray2) :
  well_shaped a -> 0 < nrows a -> 0 < ncols a ->
  exists m labels,
    label_stage self a = Ok (m, labels) /\
    forall i, i ∈ gt_argmax_overlaps m ->
      (_clobber_positives self = false -> labels !! i = Some 1%Z) /\
      (_clobber_positives self = true ->
       forall o, max_overlaps m !! i = Some o ->
                 (o < _negative_overlap self)%Q ->
                 labels !! i = Some 0%Z).
Proof.
  intros [Hlen _] Hn Hm.
  destruct (label_stage_ok self a Hn Hm) as (m&_&Hst&Hmx&Hgam).
  exists m, (assign_labels self m (nrows a)). split; [done|].
  intros i Hin. split.
  - intros Hc. apply assign_labels_forced; [lia|done|done|].
    rewrite Hgam in Hin. apply gt_argmax_in_range in Hin. lia.
  - intros Hc o Ho Hlt. eapply assign_labels_clobbered; eauto. lia.
Qed.

(** C6: when some ground-truth column is zero on every inside anchor, its
    maximum is 0, every anchor attains it, so every anchor is placed in
    [gt_argmax_overlaps]; with [clobber_positives] false every anchor then
    has label 1 before sampling. *)
Theorem zero_column_selects_every_anchor (self : AnchorTarget) (a : ndarray2)
    (j : nat) :
  well_shaped a -> 0 < nrows a -> j < ncols a ->
  (forall i, i < nrows a -> (cell a i j == 0)%Q) ->
  exists m labels,
    label_stage self a = Ok (m, labels) /\
    (forall i, i < nrows a -> i ∈ gt_argmax_overlaps m) /\
    (_clobber_positives self = false ->
     forall i, i < nrows a -> labels !! i = Some 1%Z).
Proof.
  intros Hws Hn Hj Hzero. pose proof Hws as [Hlen _].
  destruct (label_stage_ok self a Hn) as (m&_&Hst&Hmx&Hgam); [lia|].
  exists m, (assign_labels self m (nrows a)). split; [done|].
  assert (Hall : forall i, i < nrows a -> i ∈ gt_argmax_overlaps m).
  { intros i Hi. rewrite Hgam. apply elem_of_gt_argmax; [done..|].
    split; [done|]. exists j. split; [done|]. split.
    - exists i. split; [done|reflexivity].
    - intros k Hk. rewrite (Hzero k Hk), (Hzero i Hi). apply Qle_refl. }
  split; [exact Hall|].
  intros Hc i Hi. apply assign_labels_forced; auto. lia.
Qed.

(** C5 (as the code behaves): with no ground-truth column the per-anchor
    [argmax] has nothing to reduce over and raises [ValueError]; neither
    the best overlaps nor any label is produced. *)
Theorem empty_ground_truth_raises (self : AnchorTarget) (a : ndarray2) :
  ncols a = 0 ->
  overlap_matcher a = Raise empty_argmax /\
  label_stage self a = Raise empty_argmax.
Proof.
  intros Hm. unfold label_stage, overlap_matcher, argmax_axis1.
  rewrite Hm. simpl. done.
Qed.

(** ** Counting labels *)

Lemma count_eq_cons (v x : Z) (l : list Z) :
  count_eq v (x :: l) = (if decide (x = v) then 1 else 0) + count_eq v l.
Proof.
  unfold count_eq. rewrite filter_cons. by destruct (decide (x = v)).
Qed.

Lemma count_eq_insert (v y : Z) (l : list Z) (i : nat) (x : Z) :
  l !! i = Some x ->
  count_eq v (<[i:=y]> l) + (if decide (x = v) then 1 else 0)
  = count_eq v l + (if decide (y = v) then 1 else 0).
Proof.
  revert i. induction l as [|z t IH]; intros i Hx; [done|].
  destruct i as [|i]; simpl in *.
  - injection Hx as ->. rewrite !count_eq_cons. lia.
  - rewrite !count_eq_cons. specialize (IH i Hx). lia.
Qed.

Lemma length_where_from (k : nat) (v : Z) (l : list Z) :
  length (where_from k (labels_eq v l)) = count_eq v l.
Proof.
  revert k. induction l as [|x t IH]; intros k; [done|].
  rewrite count_eq_cons. unfold labels_eq in *. simpl.
  destruct (Z.eqb_spec x v) as [->|Hne]; simpl.
  - rewrite IH. by destruct (decide (v = v)).
  - rewrite IH. by destruct (decide (x = v)).
Qed.

Lemma where_from_ge (k i : nat) (mask : list bool) :
  i ∈ where_from k mask -> k <= i.
Proof. rewrite elem_of_where_from. intros (?&->&_). lia. Qed.

Lemma NoDup_where_from (k : nat) (mask : list bool) :
  NoDup (where_from k mask).
Proof.
  revert k. induction mask as [|b t IH]; intros k; simpl.
  - constructor.
  - destruct b; [|apply IH]. constructor; [|apply IH].
    intros Hin. apply where_from_ge in Hin. lia.
Qed.

Lemma elem_of_where_label (v : Z) (l : list Z) (i : nat) :
  i ∈ np_where (labels_eq v l) <-> l !! i = Some v.
Proof.
  rewrite elem_of_np_where. unfold labels_eq. rewrite list_lookup_fmap.
  destruct (l !! i) as [x|]; simpl; [|done].
  destruct (Z.eqb_spec x v); split; intros H; congruence.
Qed.

(** Demoting distinct anchors that all carry [v] lowers the count of [v]
    by their number and leaves the count of any other label but -1. *)
Lemma count_eq_assign_inds (v : Z) (inds : list nat) (l : list Z) :
  v <> (-1)%Z -> NoDup inds ->
  (forall i, i ∈ inds -> l !! i = Some v) ->
  count_eq v (assign_inds inds (-1)%Z l) + length inds = count_eq v l /\
  forall u, u <> v -> u <> (-1)%Z ->
            count_eq u (assign_inds inds (-1)%Z l) = count_eq u l.
Proof.
  intros Hv. unfold assign_inds. revert l.
  induction inds as [|k t IH]; intros l Hnd Hall; simpl.
  - split; [lia|done].
  - apply NoDup_cons in Hnd as [Hk Hnd].
    assert (Hlk : l !! k = Some v) by (apply Hall; left).
    destruct (IH (<[k:=(-1)%Z]> l) Hnd) as [IH1 IH2].
    { intros i Hi. rewrite list_lookup_insert_ne.
      - apply Hall. by right.
      - intros ->. done. }
    split.
    + pose proof (count_eq_insert v (-1)%Z l k v Hlk) as E.
      destruct (decide (v = v)); [|done].
      destruct (decide ((-1)%Z = v)); [congruence|]. lia.
    + intros u Hu Hu'. rewrite IH2 by done.
      pose proof (count_eq_insert u (-1)%Z l k v Hlk) as E.
      destruct (decide (v = u)); [congruence|].
      destruct (decide ((-1)%Z = u)); [congruence|]. lia.
Qed.

(** ** One subsampling pass *)

Section SamplerFacts.
Context {rng : Type}.
Variable choice : rng -> list nat -> nat -> list nat * rng.
Hypothesis choice_ok : sample_without_replacement choice.

Lemma disable_excess_spec (v target : Z) (labels : list Z) (g : rng) :
  v <> (-1)%Z -> (0 <= target)%Z ->
  exists labels' g',
    disable_excess choice v target labels g = Ok (labels', g') /\
    length labels' = length labels /\
    Z.of_nat (count_eq v labels')
      = Z.min (Z.of_nat (count_eq v labels)) target /\
    (forall u, u <> v -> u <> (-1)%Z ->
               count_eq u labels' = count_eq u labels) /\
    (forall i, labels' !! i = labels !! i \/
               labels' !! i = Some (-1)%Z).
Proof.
  intros Hv Ht. unfold disable_excess, np_where.
  rewrite length_where_from.
  destruct (Z.ltb_spec target (Z.of_nat (count_eq v labels))) as [Hlt|Hge].
  - unfold np_random_choice.
    destruct (Z.ltb_spec (Z.of_nat (count_eq v labels) - target) 0);
      [lia|].
    rewrite length_where_from.
    destruct (Z.ltb_spec (Z.of_nat (count_eq v labels))
                (Z.of_nat (count_eq v labels) - target)); [lia|].
    set (k := Z.to_nat (Z.of_nat (count_eq v labels) - target)).
    destruct (choice g (where_from 0 (labels_eq v labels)) k)
      as [chosen g'] eqn:Ech.
    simpl. exists (assign_inds chosen (-1)%Z labels), g'.
    split; [done|].
    destruct (choice_ok g (where_from 0 (labels_eq v labels)) k)
      as (Hlen&rest&Hperm).
    { rewrite length_where_from. lia. }
    rewrite Ech in Hlen, Hperm. simpl in Hlen, Hperm.
    assert (Hnd : NoDup chosen).
    { pose proof (NoDup_where_from 0 (labels_eq v labels)) as Hn.
      rewrite Hperm in Hn. by apply NoDup_app in Hn as [? _]. }
    assert (Hsub : forall i, i ∈ chosen -> labels !! i = Some v).
    { intros i Hi. apply elem_of_where_label. unfold np_where.
      rewrite Hperm. apply elem_of_app. by left. }
    destruct (count_eq_assign_inds v chosen labels Hv Hnd Hsub)
      as [Hc1 Hc2].
    split; [apply length_assign_inds|].
    split; [lia|]. split; [exact Hc2|].
    intros i. apply lookup_assign_inds_cases.
  - exists labels, g. split; [done|]. split; [done|].
    split; [lia|]. split; [done|]. intros i. by left.
Qed.
End SamplerFacts.

(** ** The balanced sampler *)

Lemma py_int_floor (x : Q) : (0 <= x)%Q -> py_int x = Qfloor x.
Proof.
  destruct x as [n d]. unfold Qle, py_int, Qfloor. simpl. intros H.
  apply Z.quot_div_nonneg; lia.
Qed.

Lemma num_fg_range (ff : Q) (bs : Z) :
  (0 <= ff)%Q -> (ff <= 1)%Q -> (0 <= bs)%Z ->
  (0 <= Qfloor (ff * inject_Z bs) <= bs)%Z.
Proof.
  intros H0 H1 Hb.
  assert (Hq : (0 <= inject_Z bs)%Q).
  { change 0%Q with (inject_Z 0). by rewrite <- Zle_Qle. }
  split.
  - change 0%Z with (Qfloor (inject_Z 0)).
    apply Qfloor_resp_le. change (inject_Z 0) with 0%Q.
    by apply Qmult_le_0_compat.
  - rewrite <- (Qfloor_Z bs) at 2. apply Qfloor_resp_le.
    rewrite <- (Qmult_1_l (inject_Z bs)) at 2.
    by apply Qmult_le_compat_r.
Qed.

Section SamplerBounds.
Context {rng : Type}.
Variable choice : rng -> list nat -> nat -> list nat * rng.
Hypothesis choice_ok : sample_without_replacement choice.

(** The two passes in sequence: what each leaves of the labels 1 and 0. *)
Lemma subsample_counts (self : AnchorTarget) (labels : list Z) (g : rng) :
  (0 <= _foreground_fraction self)%Q ->
  (_foreground_fraction self <= 1)%Q ->
  (0 <= _batch_size self)%Z ->
  let num_fg :=
    Qfloor (_foreground_fraction self * inject_Z (_batch_size self)) in
  exists labels' g',
    subsample choice self labels g = Ok (labels', g') /\
    Z.of_nat (count_eq 1%Z labels')
      = Z.min (Z.of_nat (count_eq 1%Z labels)) num_fg /\
    Z.of_nat (count_eq 0%Z labels')
      = Z.min (Z.of_nat (count_eq 0%Z labels))
          (_batch_size self - Z.of_nat (count_eq 1%Z labels')) /\
    length labels' = length labels /\
    forall i, labels' !! i = labels !! i \/ labels' !! i = Some (-1)%Z.
Proof.
  intros H0 H1 Hb num_fg.
  pose proof (num_fg_range _ _ H0 H1 Hb) as Hr. fold num_fg in Hr.
  unfold subsample. rewrite py_int_floor by
    (apply Qmult_le_0_compat; [done|];
     change 0%Q with (inject_Z 0); by rewrite <- Zle_Qle).
  fold num_fg.
  destruct (disable_excess_spec choice choice_ok 1%Z num_fg labels g)
    as (l1&g1&E1&Hlen1&Hc1&Ho1&Hk1); [done|lia|].
  rewrite E1. simpl.
  destruct (disable_excess_spec choice choice_ok 0%Z
              (_batch_size self - Z.of_nat (count_eq 1%Z l1)) l1 g1)
    as (l2&g2&E2&Hlen2&Hc2&Ho2&Hk2); [done|lia|].
  exists l2, g2. split; [exact E2|].
  assert (E11 : count_eq 1%Z l2 = count_eq 1%Z l1) by (by apply Ho2).
  assert (E00 : count_eq 0%Z l1 = count_eq 0%Z labels) by (by apply Ho1).
  rewrite E11. rewrite E00 in Hc2.
  split; [lia|]. split; [lia|]. split; [lia|].
  intros i. destruct (Hk2 i) as [-> | ->]; [apply Hk1|by right].
Qed.

End SamplerBounds.

Lemma first_k_ok : sample_without_replacement first_k.
Proof.
  intros g a k Hk. simpl. split.
  - rewrite length_take. lia.
  - exists (drop k a). by rewrite take_drop.
Qed.

(** ** Outside weights *)

Lemma lookup_outside_weights (labels : list Z) (i : nat) (l : Z) :
  labels !! i = Some l ->
  outside_weights labels !! i =
  Some (let w := (1 / inject_Z (Z.of_nat (count_ge0 labels + 1)))%Q in
        if Z.eqb l 0 then (w, w, w, w)
        else if Z.eqb l 1 then (w, w, w, w) else zero4).
Proof.
  intros Hl. unfold outside_weights.
  assert (Hi : i < length labels) by (by apply lookup_lt_Some in Hl).
  rewrite (lookup_assign_mask _ _ _ i (Z.eqb l 0)
             (if Z.eqb l 1
              then let w := (1 / inject_Z (Z.of_nat (count_ge0 labels + 1)))%Q
                   in (w, w, w, w)
              else zero4)).
  - done.
  - unfold labels_eq. by rewrite list_lookup_fmap, Hl.
  - rewrite (lookup_assign_mask _ _ _ i (Z.eqb l 1) zero4).
    + done.
    + unfold labels_eq. by rewrite list_lookup_fmap, Hl.
    + by apply lookup_replicate_2.
Qed.

(** C4: with num_examples = (number of inside anchors with label >= 0) + 1,
    an inside anchor labelled 1 or 0 has outside weight 1/num_examples on
    each of its four components, the same for positives and negatives, and
    an inside anchor labelled -1 has the zero vector. *)
Theorem outside_weights_uniform (labels : list Z) (i : nat) (l : Z) :
  labels !! i = Some l ->
  let num_examples := count_ge0 labels + 1 in
  let w := (1 / inject_Z (Z.of_nat num_examples))%Q in
  (l = 1%Z \/ l = 0%Z -> outside_weights labels !! i = Some (w, w, w, w)) /\
  (l = (-1)%Z -> outside_weights labels !! i = Some zero4).
Proof.
  intros Hl num_examples w.
  pose proof (lookup_outside_weights labels i l Hl) as E. split.
  - intros [-> | ->]; exact E.
  - intros ->. exact E.
Qed.

(** ** Regression targets *)

Lemma take_rows_ok (gt_boxes : list gt_box) (inds : list nat) :
  Forall (fun k => k < length gt_boxes) inds ->
  exists matched,
    take_rows gt_boxes inds = Ok matched /\
    length matched = length inds /\
    forall i k, inds !! i = Some k ->
      exists gb, gt_boxes !! k = Some gb /\ matched !! i = Some gb.
Proof.
  unfold take_rows. induction 1 as [|k t Hk _ IH]; simpl.
  - exists []. split; [done|]. split; [done|]. by intros i k ?.
  - destruct IH as (matched&E&Hlen&Hall).
    destruct (lookup_lt_is_Some_2 gt_boxes k Hk) as [gb Hgb].
    exists (gb :: matched).
    split; [|split].
    + unfold mbind, result_bind at 1. rewrite Hgb.
      unfold mbind, result_bind at 1. rewrite E. done.
    + simpl. by rewrite Hlen.
    + intros [|i] k' Hi; simpl in *.
      * injection Hi as <-. eauto.
      * by apply Hall.
Qed.

Lemma argmax_in_range (r : list Q) : 0 < length r -> argmax r < length r.
Proof.
  intros Hr. destruct (argmax_spec r) as (v&Hv&_).
  - intros ->. simpl in Hr. lia.
  - by apply lookup_lt_Some in Hv.
Qed.

Lemma lookup_inside_weights_off (self : AnchorTarget) (labels : list Z)
    (i : nat) (l : Z) :
  labels !! i = Some l -> l <> 1%Z ->
  inside_weights self labels !! i = Some zero4.
Proof.
  intros Hl Hne. unfold inside_weights.
  rewrite (lookup_assign_mask _ _ _ i (Z.eqb l 1) zero4).
  - by destruct (Z.eqb_spec l 1).
  - unfold labels_eq. by rewrite list_lookup_fmap, Hl.
  - apply lookup_replicate_2. by apply lookup_lt_Some in Hl.
Qed.

Section Targets.
Context {rng : Type}.
Variable choice : rng -> list nat -> nat -> list nat * rng.
Hypothesis choice_ok : sample_without_replacement choice.
Variable bbox_overlaps : list vec4 -> list gt_box -> list (list Q).
Variable bbox_transform : vec4 -> vec4 -> vec4.

(** C8 (as the code behaves): the zero array of line 182 is overwritten
    on line 183, so every inside anchor, whatever its final label, gets
    the encoding of its box against the ground-truth box of its best
    overlap; only the inside weight is the zero vector where the label
    is not 1. *)
Theorem regression_targets_for_every_anchor (self : AnchorTarget)
    (anchors : list vec4) (gt_boxes : list gt_box) (g : rng) :
  0 < length anchors -> 0 < length gt_boxes ->
  well_shaped {| nrows := length anchors;
                 ncols := length gt_boxes;
                 rows := bbox_overlaps anchors gt_boxes |} ->
  (0 <= _foreground_fraction self)%Q ->
  (_foreground_fraction self <= 1)%Q ->
  (0 <= _batch_size self)%Z ->
  exists t g',
    anchor_targets choice bbox_overlaps bbox_transform self anchors
      gt_boxes g = Ok (t, g') /\
    forall i a, anchors !! i = Some a ->
      (exists r gb,
         bbox_overlaps anchors gt_boxes !! i = Some r /\
         gt_boxes !! argmax r = Some gb /\
         bbox_targets_of t !! i = Some (bbox_transform a gb.1)) /\
      (forall l, labels_of t !! i = Some l -> l <> 1%Z ->
                 bbox_inside_weights_of t !! i = Some zero4).
Proof.
  intros Hn Hm Hws H0 H1 Hb. pose proof Hws as [Hlen Hrows].
  simpl in Hlen, Hrows.
  unfold anchor_targets.
  set (ov := {| nrows := length anchors; ncols := length gt_boxes;
                rows := bbox_overlaps anchors gt_boxes |}) in *.
  destruct (label_stage_ok self ov Hn Hm) as (m&Hmatch&Hst&_&_).
  rewrite Hst. simpl.
  destruct (subsample_counts choice choice_ok self
              (assign_labels self m (length anchors)) g H0 H1 Hb)
    as (labels&g'&Es&_).
  rewrite Es. simpl.
  rewrite overlap_matcher_ok in Hmatch by done.
  injection Hmatch as <-. simpl.
  destruct (take_rows_ok gt_boxes (argmax <$> bbox_overlaps anchors gt_boxes))
    as (matched&Et&Hml&Hmatched).
  { apply Forall_fmap. eapply Forall_impl; [exact Hrows|].
    intros r Hr. simpl in *. rewrite <- Hr. apply argmax_in_range.
    rewrite Hr. exact Hm. }
  rewrite Et. simpl. eexists _, g'. split; [reflexivity|]. simpl.
  intros i a Ha. split.
  - destruct (lookup_lt_is_Some_2 (bbox_overlaps anchors gt_boxes) i)
      as [r Hr].
    { apply lookup_lt_Some in Ha. lia. }
    destruct (Hmatched i (argmax r)) as (gb&Hgb&Hmi).
    { by rewrite list_lookup_fmap, Hr. }
    exists r, gb. split; [done|]. split; [done|].
    unfold _compute_targets. apply lookup_zip_with_Some.
    exists a, gb.1. split; [done|]. split; [done|].
    rewrite list_lookup_fmap.
    transitivity (fst <$> Some gb); [f_equal; exact Hmi|done].
  - intros l Hl Hne. by apply (lookup_inside_weights_off self labels i l).
Qed.
End Targets.

Lemma Qred_zero (x : Q) : Qred x = 0%Q -> (x == 0)%Q.
Proof. intros H. rewrite <- (Qred_correct x), H. reflexivity. Qed.

Lemma corner_offsets_faithful : encoder_faithful corner_offsets.
Proof.
  intros [[[a1 a2] a3] a4] [[[g1 g2] g3] g4]. unfold corner_offsets, zero4.
  intros H. injection H as H1 H2 H3 H4.
  apply Qred_zero in H1, H2, H3, H4. unfold vec4_eq.
  repeat split.
  - rewrite <- (Qplus_0_l a1), <- H1. ring.
  - rewrite <- (Qplus_0_l a2), <- H2. ring.
  - rewrite <- (Qplus_0_l a3), <- H3. ring.
  - rewrite <- (Qplus_0_l a4), <- H4. ring.
Qed.

Lemma iou_matrix_well_shaped (anchors : list vec4) (gt_boxes : list gt_box) :
  well_shaped {| nrows := length anchors;
                 ncols := length gt_boxes;
                 rows := iou_matrix anchors gt_boxes |}.
Proof.
  split; simpl; unfold iou_matrix.
  - by rewrite length_fmap.
  - apply Forall_fmap, Forall_forall. intros a _. simpl.
    by rewrite length_fmap.
Qed.

(** ** Configuration *)

(** C9 (as the code behaves): the constructor takes the anchor scales,
    the anchor ratios and the stride only; whatever they are it installs
    allowed_border 0, clobber_positives false, positive_overlap 0.7,
    negative_overlap 0.3, foreground_fraction 0.5 and batch_size 256
    without any check, and the label assigner labels the anchors of any
    non-empty overlap matrix under whatever thresholds the object holds,
    also when negative_overlap is not below positive_overlap. *)
Theorem configuration_is_never_validated
    (generate_anchors : list Q -> list Q -> list vec4)
    (anchor_scales anchor_ratios : list Q) (feat_stride : list Z)
    (self : AnchorTarget) (a : ndarray2) :
  0 < nrows a -> 0 < ncols a ->
  (let fresh :=
     __init__ generate_anchors anchor_scales anchor_ratios feat_stride in
   _allowed_border fresh = 0%Q /\
   _clobber_positives fresh = false /\
   _positive_overlap fresh = (7 # 10)%Q /\
   _negative_overlap fresh = (3 # 10)%Q /\
   _foreground_fraction fresh = (1 # 2)%Q /\
   _batch_size fresh = 256%Z) /\
  exists m, label_stage self a = Ok (m, assign_labels self m (nrows a)).
Proof.
  intros Hn Hm. split; [by repeat split|].
  destruct (label_stage_ok self a Hn Hm) as (m&_&Hst&_&_).
  by exists m.
Qed.

(** ** Determinism *)


Lemma rotating_choice_ok : sample_without_replacement rotating_choice.
Proof.
  intros g a k Hk. simpl. split.
  - rewrite length_take, length_rotate. lia.
  - exists (drop k (rotate g a)). rewrite take_drop.
    unfold rotate. by rewrite Permutation_app_comm, take_drop.
Qed.

(** Without seeding in between, the second of two invocations starts from
    the state the first one left and may sample other anchors. *)
Example unseeded_invocations_differ :
  let self := set_batch_size default_labeler 2 in
  exists l1 g1 l2 g2,
    subsample rotating_choice self [1; 1; 1; 0; 0]%Z 0 = Ok (l1, g1) /\
    subsample rotating_choice self [1; 1; 1; 0; 0]%Z g1 = Ok (l2, g2) /\
    l1 <> l2.
Proof.
  exists [-1; -1; 1; 0; -1]%Z, 2, [-1; 1; -1; 0; -1]%Z, 4.
  split; [vm_compute; reflexivity|].
  split; [vm_compute; reflexivity|discriminate].
Qed.

(** ** Free names of the function body *)

Lemma load_im_info :
  load_global module_globals "im_info" = Raise (NameError "im_info").
Proof. vm_compute. reflexivity. Qed.


Lemma inside_filter_module (self : AnchorTarget) (all : list vec4) :
  inside_filter module_globals self all = Raise (NameError "im_info").
Proof. unfold inside_filter. rewrite load_im_info. reflexivity. Qed.



Section LayerFacts.
Context {rng : Type}.
Variable choice : rng -> list nat -> nat -> list nat * rng.
Variable bbox_overlaps : list vec4 -> list gt_box -> list (list Q).
Variable bbox_transform : vec4 -> vec4 -> vec4.
Variable py_call_unmap :
  forall A : Type, pyobj -> list A -> nat -> list nat -> A -> result (list A).


(** No invocation in the module's own namespace returns. *)
Lemma layer_never_returns (self : AnchorTarget) (shape : list nat)
    (gt_boxes : list gt_box) (g : rng) (out : outputs * rng) :
  _anchor_target_layer_np choice bbox_overlaps bbox_transform py_call_unmap
    module_globals self shape gt_boxes g <> Ok out.
Proof.
  unfold _anchor_target_layer_np.
  destruct (anchor_grid self shape) as [gr|e]; simpl; [|done].
  rewrite inside_filter_module. done.
Qed.

End LayerFacts.

(** ** The theorems at concrete inputs *)

Lemma tied_overlaps_well_shaped : well_shaped tied_overlaps.
Proof. split; [reflexivity|]. repeat constructor. Qed.

Lemma forced_positive_pass_order_witness :
  exists m labels,
    label_stage (set_clobber default_labeler true) tied_overlaps
    = Ok (m, labels) /\
    forall i, i ∈ gt_argmax_overlaps m ->
      (_clobber_positives (set_clobber default_labeler true) = false ->
       labels !! i = Some 1%Z) /\
      (_clobber_positives (set_clobber default_labeler true) = true ->
       forall o, max_overlaps m !! i = Some o ->
                 (o < _negative_overlap (set_clobber default_labeler true))%Q ->
                 labels !! i = Some 0%Z).
Proof.
  apply (forced_positive_pass_order (set_clobber default_labeler true)
           tied_overlaps).
  - exact tied_overlaps_well_shaped.
  - simpl. lia.
  - simpl. lia.
Defined.



Lemma outside_weights_uniform_witness :
  (1%Z = 1%Z \/ 1%Z = 0%Z ->
   outside_weights [1; 0; -1]%Z !! 0
   = Some (let w := (1 / inject_Z (Z.of_nat (count_ge0 [1; 0; -1]%Z + 1)))%Q
           in (w, w, w, w))) /\
  (1%Z = (-1)%Z -> outside_weights [1; 0; -1]%Z !! 0 = Some zero4).
Proof.
  apply (outside_weights_uniform [1; 0; -1]%Z 0 1%Z). reflexivity.
Defined.

Lemma empty_ground_truth_raises_witness :
  overlap_matcher {| nrows := 2; ncols := 0; rows := [[]; []] |}
  = Raise empty_argmax /\
  label_stage default_labeler {| nrows := 2; ncols := 0; rows := [[]; []] |}
  = Raise empty_argmax.
Proof.
  apply (empty_ground_truth_raises default_labeler
           {| nrows := 2; ncols := 0; rows := [[]; []] |}).
  reflexivity.
Defined.

(** C5 as stated fails: a well-shaped [2 x 0] overlap matrix makes the
    label stage raise instead of producing labels. *)
Lemma empty_ground_truth_counterexample :
  ~ (forall (self : AnchorTarget) (a : ndarray2),
       well_shaped a -> ncols a = 0 ->
       exists m labels,
         label_stage self a = Ok (m, labels) /\
         Forall (fun o => (o == 0)%Q) (max_overlaps m) /\
         gt_argmax_overlaps m = [] /\
         Forall (fun l => l = 0%Z \/ l = (-1)%Z) labels).
Proof.
  intros H.
  destruct (H default_labeler {| nrows := 2; ncols := 0; rows := [[]; []] |})
    as (m&labels&E&_).
  - split; [reflexivity|]. repeat constructor.
  - reflexivity.
  - vm_compute in E. discriminate E.
Qed.

Lemma zero_column_selects_every_anchor_witness :
  exists m labels,
    label_stage default_labeler tied_overlaps = Ok (m, labels) /\
    (forall i, i < nrows tied_overlaps -> i ∈ gt_argmax_overlaps m) /\
    (_clobber_positives default_labeler = false ->
     forall i, i < nrows tied_overlaps -> labels !! i = Some 1%Z).
Proof.
  apply (zero_column_selects_every_anchor default_labeler tied_overlaps 1).
  - exact tied_overlaps_well_shaped.
  - simpl. lia.
  - simpl. lia.
  - intros i Hi. simpl in Hi.
    destruct i as [|[|[|i]]]; [reflexivity..|lia].
Defined.


(** With [im_info] bound, the run gets as far as the unmap step and stops
    at the free name [_unmap]. *)
Example layer_stops_at_unmap :
  _anchor_target_layer_np first_k iou_matrix corner_offsets not_callable
    (<["im_info"%string := PyArray [32; 32; 1]%Q]> module_globals)
    default_labeler [1; 2; 2; 18] one_gt_box tt
  = Raise (NameError "_unmap").
Proof. vm_compute. reflexivity. Qed.

Lemma regression_targets_for_every_anchor_witness :
  exists t g',
    anchor_targets first_k iou_matrix corner_offsets default_labeler
      two_anchors one_gt_box tt = Ok (t, g') /\
    forall i a, two_anchors !! i = Some a ->
      (exists r gb,
         iou_matrix two_anchors one_gt_box !! i = Some r /\
         one_gt_box !! argmax r = Some gb /\
         bbox_targets_of t !! i = Some (corner_offsets a gb.1)) /\
      (forall l, labels_of t !! i = Some l -> l <> 1%Z ->
                 bbox_inside_weights_of t !! i = Some zero4).
Proof.
  apply (regression_targets_for_every_anchor first_k first_k_ok iou_matrix
           corner_offsets default_labeler two_anchors one_gt_box tt).
  - simpl. lia.
  - simpl. lia.
  - apply iou_matrix_well_shaped.
  - simpl. discriminate.
  - simpl. discriminate.
  - simpl. lia.
Defined.

(** C8 as stated fails: the second of two side-by-side anchors ends with
    label 0 and still carries a non-zero target, for any faithful
    encoder of box deltas. *)
Lemma regression_targets_counterexample :
  ~ (forall bbox_transform : vec4 -> vec4 -> vec4,
       encoder_faithful bbox_transform ->
       forall (self : AnchorTarget) (anchors : list vec4)
              (gt_boxes : list gt_box) (t : targets) (g' : unit),
         anchor_targets first_k iou_matrix bbox_transform self anchors
           gt_boxes tt = Ok (t, g') ->
         forall i l, labels_of t !! i = Some l -> l <> 1%Z ->
                     bbox_targets_of t !! i = Some zero4).
Proof.
  intros H.
  specialize (H corner_offsets corner_offsets_faithful default_labeler
                two_anchors one_gt_box).
  destruct (anchor_targets first_k iou_matrix corner_offsets default_labeler
              two_anchors one_gt_box tt) as [[t g']|e] eqn:E.
  - specialize (H t g' eq_refl 1 0%Z).
    vm_compute in E. injection E as <- <-.
    specialize (H eq_refl ltac:(lia)). vm_compute in H. discriminate H.
  - vm_compute in E. discriminate E.
Qed.

Lemma configuration_is_never_validated_witness :
  (let fresh := __init__ one_template [8%Q] [1%Q] [16%Z] in
   _allowed_border fresh = 0%Q /\
   _clobber_positives fresh = false /\
   _positive_overlap fresh = (7 # 10)%Q /\
   _negative_overlap fresh = (3 # 10)%Q /\
   _foreground_fraction fresh = (1 # 2)%Q /\
   _batch_size fresh = 256%Z) /\
  exists m,
    label_stage (set_overlaps default_labeler (7 # 10) (8 # 10)) tied_overlaps
    = Ok (m, assign_labels (set_overlaps default_labeler (7 # 10) (8 # 10))
               m (nrows tied_overlaps)).
Proof.
  apply (configuration_is_never_validated one_template [8%Q] [1%Q] [16%Z]
           (set_overlaps default_labeler (7 # 10) (8 # 10)) tied_overlaps).
  - simpl. lia.
  - simpl. lia.
Defined.

(** C9 as stated fails: a labeler whose negative_overlap 0.8 is above its
    positive_overlap 0.7 labels the anchors without any error. *)
Lemma configuration_counterexample :
  let self := set_overlaps default_labeler (7 # 10) (8 # 10) in
  (_positive_overlap self <= _negative_overlap self)%Q /\
  exists m,
    label_stage self tied_overlaps = Ok (m, [1; 1; 1]%Z).
Proof.
  split.
  - vm_compute. discriminate.
  - eexists. vm_compute. reflexivity.
Qed.

(** * Further properties of the code *)

(** ** [argmax] breaks ties towards the first index *)

Lemma argmax_from_first (pre rest : list Q) (best : nat) (bv : Q) :
  pre !! best = Some bv ->
  Forall (fun x => (x <= bv)%Q) pre ->
  (forall k x, k < best -> pre !! k = Some x -> (x < bv)%Q) ->
  forall k x v,
    k < argmax_from best bv (length pre) rest ->
    (pre ++ rest) !! k = Some x ->
    (pre ++ rest) !! argmax_from best bv (length pre) rest = Some v ->
    (x < v)%Q.
Proof.
  revert pre best bv.
  induction rest as [|y t IH]; intros pre best bv Hb Hle Hlt k x v; simpl.
  - rewrite app_nil_r. intros Hk Hx Hv.
    rewrite Hb in Hv. injection Hv as <-. by apply (Hlt k).
  - assert (Hbl : best < length pre) by (by apply lookup_lt_Some in Hb).
    destruct (Qltb bv y) eqn:E.
    + apply Qltb_lt in E.
      specialize (IH (pre ++ [y]) (length pre) y).
      rewrite length_app in IH. simpl in IH.
      replace (length pre + 1) with (S (length pre)) in IH by lia.
      rewrite <- app_assoc in IH. simpl in IH. apply IH.
      * rewrite lookup_app_r by lia. by rewrite Nat.sub_diag.
      * apply Forall_app. split.
        -- eapply Forall_impl; [exact Hle|]. intros z Hz. simpl in Hz.
           apply Qlt_le_weak in E. eapply Qle_trans; eauto.
        -- constructor; [apply Qle_refl|constructor].
      * intros k' x' Hk' Hx'. rewrite lookup_app_l in Hx' by done.
        rewrite Forall_lookup in Hle.
        eapply Qle_lt_trans; [exact (Hle k' x' Hx')|exact E].
    + apply Qltb_ge in E.
      specialize (IH (pre ++ [y]) best bv).
      rewrite length_app in IH. simpl in IH.
      replace (length pre + 1) with (S (length pre)) in IH by lia.
      rewrite <- app_assoc in IH. simpl in IH. apply IH.
      * by apply lookup_app_l_Some.
      * apply Forall_app. split; [exact Hle|].
        constructor; [exact E|constructor].
      * intros k' x' Hk' Hx'. rewrite lookup_app_l in Hx' by lia.
        by apply (Hlt k').
Qed.

Lemma argmax_first (l : list Q) (k : nat) (x v : Q) :
  k < argmax l -> l !! k = Some x -> l !! argmax l = Some v -> (x < v)%Q.
Proof.
  destruct l as [|y t]; [by intros ?%Nat.nlt_0_r|].
  unfold argmax.
  apply (argmax_from_first [y] t 0 y); [done| |intros ? ? ?; lia].
  constructor; [apply Qle_refl|constructor].
Qed.

(** ** The overlap matcher, row by row *)

(** X1: on a well-shaped overlap matrix with at least one anchor and one
    ground-truth box, [max_overlaps[i]] is the largest entry of row [i],
    [argmax_overlaps[i]] is a column where it is attained, and every
    earlier column is strictly smaller: an anchor that ties between two
    ground-truth boxes is matched to the one of lower index. *)
Theorem max_overlaps_is_first_row_maximum (a : ndarray2) (i : nat) :
  well_shaped a -> i < nrows a -> 0 < ncols a ->
  exists m k,
    overlap_matcher a = Ok m /\
    argmax_overlaps m !! i = Some k /\
    k < ncols a /\
    max_overlaps m !! i = Some (cell a i k) /\
    (forall j, j < ncols a -> (cell a i j <= cell a i k)%Q) /\
    (forall j, j < k -> (cell a i j < cell a i k)%Q).
Proof.
  intros [Hlen Hrows] Hi Hm.
  destruct (lookup_lt_is_Some_2 (rows a) i) as [r Hr]; [lia|].
  assert (Hrl : length r = ncols a).
  { rewrite Forall_lookup in Hrows. by apply (Hrows i). }
  destruct (argmax_spec r) as (v&Hv&Hall).
  { intros ->. simpl in Hrl. lia. }
  assert (Hk : argmax r < ncols a).
  { apply lookup_lt_Some in Hv. lia. }
  assert (Hcell : forall j x, r !! j = Some x -> cell a i j = x).
  { intros j x. by apply lookup_cell. }
  eexists _, (argmax r). split; [apply overlap_matcher_ok; lia|].
  simpl. split; [by rewrite list_lookup_fmap, Hr|].
  split; [done|]. split; [|split].
  - apply lookup_zip_with_Some. exists r, (argmax r).
    split; [|split; [done|by rewrite list_lookup_fmap, Hr]].
    unfold cell. by rewrite (nth_lookup_Some _ _ _ _ Hr).
  - intros j Hj.
    destruct (lookup_lt_is_Some_2 r j) as [x Hx]; [lia|].
    rewrite (Hcell j x Hx), (Hcell _ v Hv).
    rewrite Forall_lookup in Hall. by apply (Hall j).
  - intros j Hj.
    destruct (lookup_lt_is_Some_2 r j) as [x Hx]; [lia|].
    rewrite (Hcell j x Hx), (Hcell _ v Hv).
    by apply (argmax_first r j).
Qed.

(** X2: the matcher, and with it the label stage, returns exactly when
    there is at least one inside anchor and at least one ground-truth
    box; with no inside anchor, as with no ground-truth box, it raises
    the [ValueError] of an [argmax] over an empty axis. *)
Theorem label_stage_returns_iff_nonempty (self : AnchorTarget)
    (a : ndarray2) :
  ((exists m labels, label_stage self a = Ok (m, labels)) <->
   0 < nrows a /\ 0 < ncols a) /\
  (label_stage self a = Raise empty_argmax <->
   nrows a = 0 \/ ncols a = 0).
Proof.
  unfold label_stage, overlap_matcher, argmax_axis1, argmax_axis0.
  destruct (Nat.eqb_spec (ncols a) 0) as [Hm|Hm];
    destruct (Nat.eqb_spec (nrows a) 0) as [Hn|Hn]; simpl.
  all: split; split; intros HH;
    try (destruct HH as (?&?&?)); try discriminate; try lia;
    try reflexivity; eauto; try (left; lia); try (right; lia).
Qed.

(** ** The label of each anchor before sampling *)

Lemma lookup_assign_inds_decide {A : Type} (inds : list nat) (v x : A)
    (l : list A) (i : nat) :
  l !! i = Some x ->
  assign_inds inds v l !! i
  = Some (if bool_decide (i ∈ inds) then v else x).
Proof.
  intros Hx. destruct (bool_decide_reflect (i ∈ inds)) as [Hin|Hin].
  - apply lookup_assign_inds_elem; [done|]. by apply lookup_lt_Some in Hx.
  - by rewrite lookup_assign_inds_other.
Qed.

(** The passes of lines 152-164 composed, for one anchor. *)
Lemma lookup_assign_labels (self : AnchorTarget) (m : matches) (n i : nat)
    (o : Q) :
  length (max_overlaps m) = n ->
  max_overlaps m !! i = Some o ->
  assign_labels self m n !! i =
  Some (let forced :=
          bool_decide (i ∈ gt_argmax_overlaps m)
          || Qgeb o (_positive_overlap self) in
        let low := Qltb o (_negative_overlap self) in
        if _clobber_positives self
        then (if low then 0 else if forced then 1 else -1)%Z
        else (if forced then 1 else if low then 0 else -1)%Z).
Proof.
  intros Hlen Ho.
  assert (Hi : i < n) by (apply lookup_lt_Some in Ho; lia).
  assert (Hbg : ((fun o => Qltb o (_negative_overlap self))
                   <$> max_overlaps m) !! i
                = Some (Qltb o (_negative_overlap self)))
    by (by rewrite list_lookup_fmap, Ho).
  assert (Hfg : ((fun o => Qgeb o (_positive_overlap self))
                   <$> max_overlaps m) !! i
                = Some (Qgeb o (_positive_overlap self)))
    by (by rewrite list_lookup_fmap, Ho).
  assert (H0 : replicate n (-1)%Z !! i = Some (-1)%Z)
    by (by apply lookup_replicate_2).
  unfold assign_labels. destruct (_clobber_positives self); simpl.
  - rewrite (lookup_assign_mask _ _ _ i _ _ Hbg
               (lookup_assign_mask _ _ _ i _ _ Hfg
                  (lookup_assign_inds_decide _ _ _ _ i H0))).
    destruct (Qltb o (_negative_overlap self)),
      (bool_decide (i ∈ gt_argmax_overlaps m)),
      (Qgeb o (_positive_overlap self)); reflexivity.
  - rewrite (lookup_assign_mask _ _ _ i _ _ Hfg
               (lookup_assign_inds_decide _ _ _ _ i
                  (lookup_assign_mask _ _ _ i _ _ Hbg H0))).
    destruct (Qltb o (_negative_overlap self)),
      (bool_decide (i ∈ gt_argmax_overlaps m)),
      (Qgeb o (_positive_overlap self)); reflexivity.
Qed.

Lemma Qgeb_le (a b : Q) : Qgeb a b = true <-> (b <= a)%Q.
Proof. unfold Qgeb. apply Qle_bool_iff. Qed.

Lemma Qgeb_lt (a b : Q) : Qgeb a b = false <-> (a < b)%Q.
Proof.
  unfold Qgeb. split.
  - intros H. apply Qnot_le_lt. intros Hle.
    apply Qle_bool_iff in Hle. congruence.
  - intros H. destruct (Qle_bool b a) eqn:E; [|reflexivity].
    apply Qle_bool_iff in E. exfalso. exact (Qlt_not_le _ _ H E).
Qed.

(** X3: the labels before sampling when [clobber_positives] is false.  An
    anchor is positive exactly when it is a best anchor of some
    ground-truth box or its best overlap reaches [positive_overlap];
    of the others, those below [negative_overlap] are background and the
    rest are ignored. *)
Theorem labels_without_clobbering (self : AnchorTarget) (a : ndarray2)
    (i : nat) :
  well_shaped a -> i < nrows a -> 0 < ncols a ->
  _clobber_positives self = false ->
  exists m labels o,
    label_stage self a = Ok (m, labels) /\
    max_overlaps m !! i = Some o /\
    (i ∈ gt_argmax_overlaps m \/ (_positive_overlap self <= o)%Q ->
     labels !! i = Some 1%Z) /\
    (i ∉ gt_argmax_overlaps m -> (o < _positive_overlap self)%Q ->
     (o < _negative_overlap self)%Q -> labels !! i = Some 0%Z) /\
    (i ∉ gt_argmax_overlaps m -> (o < _positive_overlap self)%Q ->
     (_negative_overlap self <= o)%Q -> labels !! i = Some (-1)%Z).
Proof.
  intros [Hlen _] Hi Hm Hc.
  destruct (label_stage_ok self a) as (m&_&Hst&Hmx&_); [lia|done|].
  destruct (lookup_lt_is_Some_2 (max_overlaps m) i) as [o Ho]; [lia|].
  exists m, (assign_labels self m (nrows a)), o.
  split; [done|]. split; [done|].
  rewrite (lookup_assign_labels self m (nrows a) i o) by (done || lia).
  rewrite Hc. simpl. split; [|split].
  - intros [Hin|Hpos].
    + by rewrite (bool_decide_eq_true_2 _ Hin).
    + apply Qgeb_le in Hpos. rewrite Hpos. by rewrite orb_true_r.
  - intros Hin Hpos Hneg.
    rewrite (bool_decide_eq_false_2 _ Hin).
    apply Qgeb_lt in Hpos. apply Qltb_lt in Hneg. by rewrite Hpos, Hneg.
  - intros Hin Hpos Hneg.
    rewrite (bool_decide_eq_false_2 _ Hin).
    apply Qgeb_lt in Hpos. apply Qltb_ge in Hneg. by rewrite Hpos, Hneg.
Qed.

(** X4: the labels before sampling when [clobber_positives] is true.
    Every anchor whose best overlap is below [negative_overlap] is
    background, best anchor of a ground-truth box or not; of the others,
    the best anchors and those reaching [positive_overlap] are positive
    and the rest are ignored. *)
Theorem labels_with_clobbering (self : AnchorTarget) (a : ndarray2)
    (i : nat) :
  well_shaped a -> i < nrows a -> 0 < ncols a ->
  _clobber_positives self = true ->
  exists m labels o,
    label_stage self a = Ok (m, labels) /\
    max_overlaps m !! i = Some o /\
    ((o < _negative_overlap self)%Q -> labels !! i = Some 0%Z) /\
    ((_negative_overlap self <= o)%Q ->
     i ∈ gt_argmax_overlaps m \/ (_positive_overlap self <= o)%Q ->
     labels !! i = Some 1%Z) /\
    ((_negative_overlap self <= o)%Q ->
     i ∉ gt_argmax_overlaps m -> (o < _positive_overlap self)%Q ->
     labels !! i = Some (-1)%Z).
Proof.
  intros [Hlen _] Hi Hm Hc.
  destruct (label_stage_ok self a) as (m&_&Hst&Hmx&_); [lia|done|].
  destruct (lookup_lt_is_Some_2 (max_overlaps m) i) as [o Ho]; [lia|].
  exists m, (assign_labels self m (nrows a)), o.
  split; [done|]. split; [done|].
  rewrite (lookup_assign_labels self m (nrows a) i o) by (done || lia).
  rewrite Hc. simpl. split; [|split].
  - intros Hneg. apply Qltb_lt in Hneg. by rewrite Hneg.
  - intros Hneg Hf. apply Qltb_ge in Hneg. rewrite Hneg.
    destruct Hf as [Hin|Hpos].
    + by rewrite (bool_decide_eq_true_2 _ Hin).
    + apply Qgeb_le in Hpos. rewrite Hpos. by rewrite orb_true_r.
  - intros Hneg Hin Hpos. apply Qltb_ge in Hneg. rewrite Hneg.
    rewrite (bool_decide_eq_false_2 _ Hin).
    apply Qgeb_lt in Hpos. by rewrite Hpos.
Qed.

(** X5: without clobbering every ground-truth box keeps a positive
    anchor: for each column there is an anchor with label 1 whose overlap
    with that box is the maximum of the column, however small that
    maximum is. *)
Theorem every_ground_truth_has_a_positive (self : AnchorTarget)
    (a : ndarray2) (j : nat) :
  well_shaped a -> 0 < nrows a -> j < ncols a ->
  _clobber_positives self = false ->
  exists m labels i,
    label_stage self a = Ok (m, labels) /\
    i < nrows a /\
    column_max a j (cell a i j) /\
    labels !! i = Some 1%Z.
Proof.
  intros Hws Hn Hj Hc. pose proof Hws as [Hlen _].
  destruct (label_stage_ok self a) as (m&_&Hst&Hmx&Hgam); [done|lia|].
  pose proof (gt_max_is_column_max a j Hws Hn) as Hmax.
  assert (Hi : argmax (column j a) < nrows a).
  { rewrite <- Hlen, <- (length_column j). apply argmax_in_range.
    rewrite length_column. lia. }
  exists m, (assign_labels self m (nrows a)), (argmax (column j a)).
  split; [done|]. split; [done|]. split; [done|].
  apply assign_labels_forced; [lia|done| |done].
  rewrite Hgam. apply elem_of_gt_argmax; [done..|]. eauto.
Qed.

(** ** The sampler at and beyond its targets *)

Section SamplerEdges.
Context {rng : Type}.
Variable choice : rng -> list nat -> nat -> list nat * rng.

Lemma disable_excess_noop (v target : Z) (labels : list Z) (g : rng) :
  (Z.of_nat (count_eq v labels) <= target)%Z ->
  disable_excess choice v target labels g = Ok (labels, g).
Proof.
  intros H. unfold disable_excess, np_where. rewrite length_where_from.
  by destruct (Z.ltb_spec target (Z.of_nat (count_eq v labels))); [lia|].
Qed.

Lemma disable_excess_negative (v target : Z) (labels : list Z) (g : rng) :
  (target < 0)%Z ->
  exists msg, disable_excess choice v target labels g
              = Raise (ValueError msg).
Proof.
  intros H. unfold disable_excess, np_where. rewrite length_where_from.
  destruct (Z.ltb_spec target (Z.of_nat (count_eq v labels))); [|lia].
  unfold np_random_choice. rewrite length_where_from.
  destruct (Z.ltb_spec (Z.of_nat (count_eq v labels) - target) 0); [lia|].
  destruct (Z.ltb_spec (Z.of_nat (count_eq v labels))
              (Z.of_nat (count_eq v labels) - target)); [|lia].
  simpl. eauto.
Qed.


(** X7: when int(foreground_fraction * batch_size) is negative, as for a
    negative batch size, the sampler raises [ValueError] on every label
    vector, with or without positives: it asks [np.random.choice] for
    more indices than there are. *)
Theorem sampler_rejects_negative_target (self : AnchorTarget)
    (labels : list Z) (g : rng) :
  (py_int (_foreground_fraction self * inject_Z (_batch_size self)) < 0)%Z ->
  exists msg, subsample choice self labels g = Raise (ValueError msg).
Proof.
  intros H. unfold subsample.
  destruct (disable_excess_negative 1%Z _ labels g H) as [msg ->].
  simpl. eauto.
Qed.

Hypothesis choice_ok : sample_without_replacement choice.

(** X8: sampling is idempotent on the labels: on the labels a first run
    returns, a second run, from whatever generator state, returns the
    same labels and leaves that state untouched. *)
Theorem sampler_is_idempotent (self : AnchorTarget) (labels : list Z)
    (g g2 : rng) :
  (0 <= _foreground_fraction self)%Q ->
  (_foreground_fraction self <= 1)%Q ->
  (0 <= _batch_size self)%Z ->
  exists labels' g',
    subsample choice self labels g = Ok (labels', g') /\
    subsample choice self labels' g2 = Ok (labels', g2).
Proof.
  intros H0 H1 Hb.
  destruct (subsample_counts choice choice_ok self labels g H0 H1 Hb)
    as (labels'&g'&E&Hfg&Hbg&_).
  exists labels', g'. split; [exact E|].
  unfold subsample.
  rewrite py_int_floor by
    (apply Qmult_le_0_compat; [done|];
     change 0%Q with (inject_Z 0); by rewrite <- Zle_Qle).
  rewrite disable_excess_noop by lia. simpl.
  apply disable_excess_noop. lia.
Qed.
End SamplerEdges.

(** ** Weights and array shapes *)

(** X9: the inside weight of an anchor is the configured vector when its
    label is 1 and the zero vector for every other label. *)
Theorem inside_weights_gate_on_positive (self : AnchorTarget)
    (labels : list Z) (i : nat) (l : Z) :
  labels !! i = Some l ->
  (l = 1%Z ->
   inside_weights self labels !! i = Some (_bbox_inside_weights self)) /\
  (l <> 1%Z -> inside_weights self labels !! i = Some zero4).
Proof.
  intros Hl. split.
  - intros ->. unfold inside_weights.
    rewrite (lookup_assign_mask _ _ _ i true zero4); [done| |].
    + unfold labels_eq. by rewrite list_lookup_fmap, Hl.
    + apply lookup_replicate_2. by apply lookup_lt_Some in Hl.
  - by apply lookup_inside_weights_off.
Qed.

Lemma Forall_assign_mask {A : Type} (P : A -> Prop) (mask : list bool)
    (v : A) (l : list A) :
  P v -> Forall P l -> Forall P (assign_mask mask v l).
Proof.
  intros Hv Hl. apply Forall_lookup. intros i x Hx.
  unfold assign_mask in Hx.
  apply lookup_zip_with_Some in Hx as (b&y&->&_&Hy).
  destruct b; [done|]. rewrite Forall_lookup in Hl. by apply (Hl i).
Qed.

Lemma Forall_assign_inds {A : Type} (P : A -> Prop) (inds : list nat)
    (v : A) (l : list A) :
  P v -> Forall P l -> Forall P (assign_inds inds v l).
Proof.
  intros Hv. unfold assign_inds. revert l.
  induction inds as [|k t IH]; intros l Hl; simpl; [done|].
  apply IH. by apply Forall_insert.
Qed.

Lemma ternary_assign_labels (self : AnchorTarget) (m : matches) (n : nat) :
  Forall ternary (assign_labels self m n).
Proof.
  unfold assign_labels.
  destruct (_clobber_positives self); simpl;
    repeat (first [apply Forall_assign_mask | apply Forall_assign_inds]);
    try (unfold ternary; lia);
    apply Forall_replicate; unfold ternary; lia.
Qed.

Lemma length_outside_weights (labels : list Z) :
  length (outside_weights labels) = length labels.
Proof.
  assert (Hin : forall v w (out : list vec4),
             length out = length labels ->
             length (assign_mask (labels_eq v labels) w out)
             = length labels).
  { intros v w out Hout. rewrite length_assign_mask; [done|].
    unfold labels_eq. by rewrite length_fmap. }
  unfold outside_weights. cbv zeta.
  apply Hin, Hin, length_replicate.
Qed.

Lemma length_inside_weights (self : AnchorTarget) (labels : list Z) :
  length (inside_weights self labels) = length labels.
Proof.
  unfold inside_weights, labels_eq.
  rewrite length_assign_mask; rewrite length_replicate;
    [done|by rewrite length_fmap].
Qed.

Lemma length_take_rows (gt_boxes : list gt_box) (inds : list nat)
    (matched : list gt_box) :
  take_rows gt_boxes inds = Ok matched -> length matched = length inds.
Proof.
  unfold take_rows. revert matched.
  induction inds as [|k t IH]; intros matched; simpl.
  - intros H. by injection H as <-.
  - unfold mbind, result_bind at 1.
    destruct (gt_boxes !! k) as [b|]; [|done].
    unfold mbind, result_bind at 1.
    destruct (mapM _ t) as [rest|e] eqn:E; [|done].
    intros H. injection H as <-. simpl. f_equal. by apply IH.
Qed.

Section CoreFacts.
Context {rng : Type}.
Variable choice : rng -> list nat -> nat -> list nat * rng.
Variable bbox_overlaps : list vec4 -> list gt_box -> list (list Q).
Variable bbox_transform : vec4 -> vec4 -> vec4.

(** What a returning run of lines 137-201 went through. *)
Lemma anchor_targets_inv (self : AnchorTarget) (anchors : list vec4)
    (gt_boxes : list gt_box) (g g' : rng) (t : targets) :
  anchor_targets choice bbox_overlaps bbox_transform self anchors gt_boxes g
  = Ok (t, g') ->
  let ov := {| nrows := length anchors;
               ncols := length gt_boxes;
               rows := bbox_overlaps anchors gt_boxes |} in
  exists m matched,
    overlap_matcher ov = Ok m /\
    subsample choice self (assign_labels self m (length anchors)) g
    = Ok (labels_of t, g') /\
    take_rows gt_boxes (argmax_overlaps m) = Ok matched /\
    bbox_targets_of t = _compute_targets bbox_transform anchors matched /\
    bbox_inside_weights_of t = inside_weights self (labels_of t) /\
    bbox_outside_weights_of t = outside_weights (labels_of t).
Proof.
  unfold anchor_targets, label_stage. cbv zeta.
  destruct (overlap_matcher _) as [m|e] eqn:Em; simpl; [|done].
  destruct (subsample _ _ _ _) as [[labels g1]|e] eqn:Es; simpl; [|done].
  destruct (take_rows _ _) as [matched|e] eqn:Et; simpl; [|done].
  intros H. injection H as <- <-. simpl.
  exists m, matched. repeat split; done.
Qed.

(** X10: the regression targets depend on the anchors, the ground-truth
    boxes and their overlaps only: two returning runs on the same
    anchors and boxes give the same targets, whatever the thresholds,
    the clobbering flag, the batch size and the random draws of each. *)
Theorem targets_ignore_thresholds_and_draws {rng2 : Type}
    (choice2 : rng2 -> list nat -> nat -> list nat * rng2)
    (self1 self2 : AnchorTarget) (anchors : list vec4)
    (gt_boxes : list gt_box) (g1 g1' : rng) (g2 g2' : rng2)
    (t1 t2 : targets) :
  anchor_targets choice bbox_overlaps bbox_transform self1 anchors gt_boxes
    g1 = Ok (t1, g1') ->
  anchor_targets choice2 bbox_overlaps bbox_transform self2 anchors gt_boxes
    g2 = Ok (t2, g2') ->
  bbox_targets_of t1 = bbox_targets_of t2.
Proof.
  intros H1 H2.
  apply anchor_targets_inv in H1 as (m1&r1&Hm1&_&Hr1&->&_).
  unfold anchor_targets, label_stage in H2. cbv zeta in H2.
  rewrite Hm1 in H2. simpl in H2.
  destruct (subsample _ _ _ _) as [[labels g]|e]; simpl in H2; [|done].
  rewrite Hr1 in H2. simpl in H2. by injection H2 as <- <-.
Qed.

Hypothesis choice_ok : sample_without_replacement choice.

(** X11: on at least one inside anchor and one ground-truth box, with a
    well-shaped overlap matrix, a foreground fraction in [0, 1] and a
    non-negative batch size, lines 137-201 return; the labels, the
    targets and both weight arrays have one row per inside anchor, and
    every final label is -1, 0 or 1. *)
Theorem anchor_targets_shapes (self : AnchorTarget) (anchors : list vec4)
    (gt_boxes : list gt_box) (g : rng) :
  0 < length anchors -> 0 < length gt_boxes ->
  well_shaped {| nrows := length anchors;
                 ncols := length gt_boxes;
                 rows := bbox_overlaps anchors gt_boxes |} ->
  (0 <= _foreground_fraction self)%Q ->
  (_foreground_fraction self <= 1)%Q ->
  (0 <= _batch_size self)%Z ->
  exists t g',
    anchor_targets choice bbox_overlaps bbox_transform self anchors
      gt_boxes g = Ok (t, g') /\
    length (labels_of t) = length anchors /\
    length (bbox_targets_of t) = length anchors /\
    length (bbox_inside_weights_of t) = length anchors /\
    length (bbox_outside_weights_of t) = length anchors /\
    Forall ternary (labels_of t).
Proof.
  intros Hn Hm Hws H0 H1 Hb. pose proof Hws as [Hlen Hrows].
  simpl in Hlen, Hrows.
  set (ov := {| nrows := length anchors; ncols := length gt_boxes;
                rows := bbox_overlaps anchors gt_boxes |}).
  destruct (label_stage_ok self ov Hn Hm) as (m&Hmatch&Hst&Hmx&_).
  simpl in Hmx.
  destruct (subsample_counts choice choice_ok self
              (assign_labels self m (length anchors)) g H0 H1 Hb)
    as (labels&g'&Es&_&_&Hll&Hkeep).
  rewrite length_assign_labels in Hll by lia.
  destruct (take_rows_ok gt_boxes (argmax_overlaps m))
    as (matched&Et&Hml&_).
  { rewrite overlap_matcher_ok in Hmatch by done. injection Hmatch as <-.
    simpl. apply Forall_fmap. eapply Forall_impl; [exact Hrows|].
    intros r Hr. simpl in *. rewrite <- Hr. apply argmax_in_range.
    rewrite Hr. exact Hm. }
  assert (Ham : length (argmax_overlaps m) = length anchors).
  { rewrite overlap_matcher_ok in Hmatch by done. injection Hmatch as <-.
    simpl. by rewrite length_fmap. }
  eexists _, g'. split.
  { unfold anchor_targets. fold ov. rewrite Hst. simpl.
    rewrite Es. simpl. rewrite Et. simpl. reflexivity. }
  simpl. split; [done|]. split.
  { unfold _compute_targets. rewrite length_zip_with, length_fmap.
    unfold gt_box in *. rewrite Hml, Ham. lia. }
  split; [by rewrite length_inside_weights|].
  split; [by rewrite length_outside_weights|].
  apply Forall_lookup. intros i x Hx.
  destruct (Hkeep i) as [E|E]; rewrite Hx in E.
  - pose proof (ternary_assign_labels self m (length anchors)) as Ht.
    rewrite Forall_lookup in Ht. by apply (Ht i).
  - injection E as ->. by left.
Qed.
End CoreFacts.

(** ** Unmapping to the full grid *)

Lemma length_scatter {A : Type} (inds : list nat) (rows : list A)
    (base : list A) :
  length (foldl (fun acc '(i, x) => <[i:=x]> acc) base (zip inds rows))
  = length base.
Proof.
  revert rows base. induction inds as [|i t IH]; intros rows base; [done|].
  destruct rows as [|x r]; [done|]. simpl.
  by rewrite IH, length_insert.
Qed.

Lemma lookup_scatter_other {A : Type} (inds : list nat) (rows : list A)
    (base : list A) (j : nat) :
  j ∉ inds ->
  foldl (fun acc '(i, x) => <[i:=x]> acc) base (zip inds rows) !! j
  = base !! j.
Proof.
  revert rows base. induction inds as [|i t IH]; intros rows base Hj; [done|].
  destruct rows as [|x r]; [done|]. simpl.
  apply not_elem_of_cons in Hj as [Hne Hj].
  rewrite IH by done. by apply list_lookup_insert_ne.
Qed.

Lemma lookup_scatter {A : Type} (inds : list nat) (rows : list A)
    (base : list A) (k i : nat) (x : A) :
  NoDup inds -> Forall (fun i => i < length base) inds ->
  inds !! k = Some i -> rows !! k = Some x ->
  foldl (fun acc '(i, x) => <[i:=x]> acc) base (zip inds rows) !! i
  = Some x.
Proof.
  revert rows base k.
  induction inds as [|i0 t IH]; intros rows base k Hnd Hin Hi Hx; [done|].
  destruct rows as [|x0 r]; [done|]. simpl.
  apply NoDup_cons in Hnd as [Hi0 Hnd].
  apply Forall_cons in Hin as [Hlt Hin].
  destruct k as [|k]; simpl in Hi, Hx.
  - injection Hi as ->. injection Hx as ->.
    rewrite lookup_scatter_other by done.
    by apply list_lookup_insert_eq.
  - apply (IH r _ k); [done| |done|done].
    by rewrite length_insert.
Qed.

Lemma forallb_lt (count : nat) (inds : list nat) :
  forallb (fun i => i <? count) inds = true
  <-> Forall (fun i => i < count) inds.
Proof.
  rewrite forallb_forall, Forall_forall. split; intros H i Hi.
  - apply Nat.ltb_lt, H. by apply list_elem_of_In.
  - apply Nat.ltb_lt, H. by apply list_elem_of_In.
Qed.

(** X12: for distinct in-range positions [inds] and one row of [data] per
    position, the method [_unmap] returns an array of [count] rows that
    holds row [k] of [data] at position [inds[k]] and [fill] at every
    other position; reading it back at [inds] gives [data] again. *)
Theorem unmap_scatters_and_fills {A : Type} (data : list A) (count : nat)
    (inds : list nat) (fill : A) :
  length data = length inds -> NoDup inds ->
  Forall (fun i => i < count) inds ->
  exists ret,
    _unmap data count inds fill = Ok ret /\
    length ret = count /\
    (forall k i, inds !! k = Some i -> ret !! i = data !! k) /\
    (forall j, j < count -> j ∉ inds -> ret !! j = Some fill).
Proof.
  intros Hlen Hnd Hin. unfold _unmap, broadcast_rows.
  rewrite Hlen, Nat.eqb_refl.
  rewrite (proj2 (forallb_lt count inds) Hin). simpl.
  eexists. split; [reflexivity|]. split; [|split].
  - by rewrite length_scatter, length_replicate.
  - intros k i Hi.
    destruct (lookup_lt_is_Some_2 data k) as [x Hx].
    { rewrite Hlen. by apply lookup_lt_Some in Hi. }
    rewrite Hx. apply (lookup_scatter inds data _ k); try done.
    by rewrite length_replicate.
  - intros j Hj Hnot. rewrite lookup_scatter_other by done.
    by apply lookup_replicate_2.
Qed.

(** X13: with in-range positions, a [data] that has neither one row per
    position nor a single row makes [_unmap] raise [ValueError]. *)
Theorem unmap_rejects_shape_mismatch {A : Type} (data : list A)
    (count : nat) (inds : list nat) (fill : A) :
  Forall (fun i => i < count) inds ->
  length data <> length inds -> length data <> 1 ->
  exists msg, _unmap data count inds fill = Raise (ValueError msg).
Proof.
  intros _ Hne H1. unfold _unmap, broadcast_rows.
  destruct (Nat.eqb_spec (length data) (length inds)); [done|].
  destruct data as [|x [|y r]]; simpl in H1; try done; eauto.
Qed.

(** X14: with one row of [data] per position, a position at or beyond
    [count] makes [_unmap] raise [IndexError]. *)
Theorem unmap_rejects_out_of_range {A : Type} (data : list A)
    (count : nat) (inds : list nat) (fill : A) :
  length data = length inds ->
  Exists (fun i => count <= i) inds ->
  exists msg, _unmap data count inds fill = Raise (IndexError msg).
Proof.
  intros Hlen Hex. unfold _unmap, broadcast_rows.
  rewrite Hlen, Nat.eqb_refl.
  destruct (forallb (fun i => i <? count) inds) eqn:E; simpl; [|eauto].
  apply forallb_lt in E. apply Exists_exists in Hex as (i&Hi&Hge).
  rewrite Forall_forall in E. specialize (E i Hi). lia.
Qed.

(** X15: a [data] of a single row is broadcast: [_unmap] writes that row
    at every position of [inds] and [fill] elsewhere, and does not
    raise. *)
Theorem unmap_broadcasts_single_row {A : Type} (x : A) (count : nat)
    (inds : list nat) (fill : A) :
  Forall (fun i => i < count) inds ->
  exists ret,
    _unmap [x] count inds fill = Ok ret /\
    length ret = count /\
    (forall i, i ∈ inds -> ret !! i = Some x) /\
    (forall j, j < count -> j ∉ inds -> ret !! j = Some fill).
Proof.
  intros Hin.
  assert (Hscatter : forall (inds : list nat) (base : list A) (i : nat),
             Forall (fun i => i < length base) inds ->
             i < length base ->
             i ∈ inds \/ base !! i = Some x ->
             foldl (fun acc '(i, x) => <[i:=x]> acc) base
               (zip inds (replicate (length inds) x)) !! i = Some x).
  { clear. induction inds as [|i0 t IH]; intros base i Hall Hi Hor; simpl.
    - destruct Hor as [Hor|Hor]; [by apply elem_of_nil in Hor|done].
    - apply Forall_cons in Hall as [Hlt Hall].
      apply IH; [by rewrite length_insert..|].
      destruct (decide (i = i0)) as [->|Hne].
      + right. by apply list_lookup_insert_eq.
      + destruct Hor as [Hor|Hor].
        * apply elem_of_cons in Hor as [?|?]; [done|by left].
        * right. by rewrite list_lookup_insert_ne. }
  exists (foldl (fun acc '(i, x) => <[i:=x]> acc) (replicate count fill)
            (zip inds (replicate (length inds) x))).
  split; [|split; [|split]].
  - unfold _unmap, broadcast_rows.
    rewrite (proj2 (forallb_lt count inds) Hin).
    change (length [x]) with 1.
    destruct (Nat.eqb_spec 1 (length inds)) as [E|E].
    + destruct inds as [|i [|j r]]; simpl in E; try lia. reflexivity.
    + reflexivity.
  - by rewrite length_scatter, length_replicate.
  - intros i Hi. apply Hscatter; [by rewrite length_replicate| |by left].
    rewrite length_replicate. rewrite Forall_forall in Hin. by apply Hin.
  - intros j Hj Hnot. rewrite lookup_scatter_other by done.
    by apply lookup_replicate_2.
Qed.

(** ** The anchor grid *)

Lemma bind_singleton_fmap {A B : Type} (f : A -> B) (l : list A) :
  (l ≫= fun x => [f x]) = f <$> l.
Proof. induction l as [|x t IH]; [done|]. rewrite bind_cons, IH. done. Qed.

Lemma length_bind_block {A B : Type} (l : list A) (g : A -> list B)
    (k : nat) :
  (forall x, x ∈ l -> length (g x) = k) ->
  length (l ≫= g) = length l * k.
Proof.
  induction l as [|x t IH]; intros Hk; [done|].
  rewrite bind_cons, length_app, Hk by left. rewrite IH; [done|].
  intros y Hy. apply Hk. by right.
Qed.

Lemma lookup_bind_block {A B : Type} (l : list A) (g : A -> list B)
    (k i r : nat) :
  (forall x, x ∈ l -> length (g x) = k) -> r < k ->
  (l ≫= g) !! (i * k + r) = l !! i ≫= fun x => g x !! r.
Proof.
  revert i. induction l as [|x t IH]; intros i Hk Hr; [done|].
  rewrite bind_cons. destruct i as [|i]; simpl.
  - rewrite lookup_app_l; [done|]. rewrite Hk by left. done.
  - rewrite lookup_app_r; rewrite Hk by left; [|lia].
    replace (k + i * k + r - k) with (i * k + r) by lia.
    apply IH; [|done]. intros y Hy. apply Hk. by right.
Qed.

Lemma arange_times_returns_iff (n : nat) (stride : list Z) :
  (exists v, arange_times n stride = Ok v)
  <-> broadcastable n (length stride).
Proof.
  unfold arange_times, broadcastable.
  destruct (Nat.eqb_spec n (length stride));
    destruct (Nat.eqb_spec (length stride) 1);
    destruct (Nat.eqb_spec n 1); split; intros HH; eauto; try lia;
    try (destruct HH as [? ?]; discriminate).
Qed.

Lemma arange_times_raises (n : nat) (stride : list Z) (e : exn) :
  arange_times n stride = Raise e -> exists msg, e = ValueError msg.
Proof.
  unfold arange_times.
  destruct (n =? length stride), (length stride =? 1), (n =? 1);
    intros H; try discriminate. injection H as <-. eauto.
Qed.



(** X17: when the grid can be built.  For a score array of shape
    [(n, H, W, ...)] the grid is returned exactly when the stride list can
    be broadcast against both [W] and [H] entries (same length, or one of
    the two of length 1) and the cached templates still have
    [_num_anchors] rows; otherwise, as for every failure of these lines,
    a [ValueError] is raised. *)
Theorem anchor_grid_returns_iff (self : AnchorTarget) (n H W : nat)
    (rest : list nat) :
  ((exists gr, anchor_grid self (n :: H :: W :: rest) = Ok gr) <->
   broadcastable W (length (_feat_stride self)) /\
   broadcastable H (length (_feat_stride self)) /\
   length (_anchors self) = _num_anchors self) /\
  match anchor_grid self (n :: H :: W :: rest) with
  | Ok _ => True
  | Raise e => exists msg, e = ValueError msg
  end.
Proof.
  unfold anchor_grid. simpl.
  rewrite <- !arange_times_returns_iff.
  destruct (arange_times W _) as [vx|ex] eqn:Ex; simpl.
  - destruct (arange_times H _) as [vy|ey] eqn:Ey; simpl.
    + destruct (Nat.eqb_spec (length (_anchors self))
                  (_num_anchors self)); simpl.
      * split; [|done]. split; eauto.
      * split; [|eauto]. split; [by intros [? ?]|by intros (_&_&?)].
    + split; [|by eapply arange_times_raises].
      split; [by intros [? ?]|by intros (_&[? ?]&_)].
  - split; [|by eapply arange_times_raises].
    split; [by intros [? ?]|by intros ([? ?]&_)].
Qed.

(** ** The inside filter under a namespace that binds [im_info] *)

Lemma zip_with_fmap_same {A B C D : Type} (f : B -> C -> D) (g : A -> B)
    (h : A -> C) (l : list A) :
  zip_with f (g <$> l) (h <$> l) = (fun x => f (g x) (h x)) <$> l.
Proof. induction l as [|x t IH]; [done|]. csimpl. by rewrite IH. Qed.

Lemma select_rows_all (P : vec4 -> Prop) (all : list vec4)
    (inds : list nat) :
  (forall i, i ∈ inds -> exists box, all !! i = Some box /\ P box) ->
  length (select_rows all inds) = length inds /\
  Forall P (select_rows all inds).
Proof.
  unfold select_rows. induction inds as [|i t IH]; intros Hall; [done|].
  destruct (Hall i) as (box&Hbox&HP); [by left|].
  destruct IH as [IH1 IH2]; [intros k Hk; apply Hall; by right|].
  csimpl. rewrite Hbox. csimpl. split; [by rewrite IH1|by constructor].
Qed.

(** X18: were [im_info] bound to an array [(h, w, ...)], the filter of
    lines 127-132 would return, in increasing order and without
    repetition, exactly the indices of the anchors with
    [x1 >= -border], [y1 >= -border], [x2 < w + border] and
    [y2 < h + border], and line 135 would keep one box per index, each of
    them inside the image. *)
Theorem inside_filter_keeps_inside (G : gmap string pyobj)
    (self : AnchorTarget) (all : list vec4) (v : list Q) (h w : Q) :
  G !! "im_info"%string = Some (PyArray v) ->
  v !! 0 = Some h -> v !! 1 = Some w ->
  exists inds,
    inside_filter G self all = Ok inds /\
    NoDup inds /\
    (forall i, i ∈ inds <->
       exists box, all !! i = Some box /\
                   inside_image (_allowed_border self) w h box) /\
    length (select_rows all inds) = length inds /\
    Forall (inside_image (_allowed_border self) w h)
      (select_rows all inds).
Proof.
  intros HG Hh Hw. unfold inside_filter, load_global. rewrite HG. simpl.
  rewrite Hw, Hh. simpl.
  rewrite !zip_with_fmap_same.
  match goal with
  | |- context [np_where (?f <$> all)] => set (test := f)
  end.
  assert (Htest : forall box,
             test box = true
             <-> inside_image (_allowed_border self) w h box).
  { intros [[[x1 y1] x2] y2]. unfold test, inside_image.
    rewrite !andb_true_iff, !Qgeb_le, !Qltb_lt. tauto. }
  assert (Hmem : forall i,
             i ∈ np_where (test <$> all) <->
             exists box, all !! i = Some box /\
                         inside_image (_allowed_border self) w h box).
  { intros i. rewrite elem_of_np_where, list_lookup_fmap.
    unfold vec4 in *. destruct (all !! i) as [box|]; simpl.
    - split.
      + intros E. exists box. split; [done|]. apply Htest. congruence.
      + intros (b&E&Hb). apply Htest in Hb. congruence.
    - split; [done|by intros (?&?&_)]. }
  eexists. split; [reflexivity|].
  split; [apply NoDup_where_from|]. split; [exact Hmem|].
  apply select_rows_all. intros i. apply Hmem.
Qed.

(** ** The feature-map layout *)

(** X19: [reshape((1, H, W, C)).transpose(0, 3, 1, 2)] on a flat array of
    [H * W * C] entries keeps the number of entries and moves the entry
    of cell [(h, w)] and channel [c], at index [(h * W + w) * C + c], to
    index [(c * H + h) * W + w]: the channel becomes the slowest axis. *)
Theorem channels_first_layout {A : Type} (H W C : nat) (d : A)
    (flat : list A) :
  length flat = H * W * C ->
  exists out,
    to_channels_first H W C d flat = Ok out /\
    length out = length flat /\
    forall c h w, c < C -> h < H -> w < W ->
      out !! ((c * H + h) * W + w) = flat !! ((h * W + w) * C + c).
Proof.
  intros Hlen. unfold to_channels_first.
  rewrite Hlen, Nat.eqb_refl. simpl.
  set (inner := fun c h => seq 0 W ≫= fun w =>
                  [nth ((h * W + w) * C + c) flat d]).
  set (mid := fun c => seq 0 H ≫= fun h => inner c h).
  assert (Hinner : forall c h, length (inner c h) = W).
  { intros c h. unfold inner.
    by rewrite bind_singleton_fmap, length_fmap, length_seq. }
  assert (Hmid : forall c, length (mid c) = H * W).
  { intros c. unfold mid.
    rewrite (length_bind_block _ _ W) by (intros; apply Hinner).
    by rewrite length_seq. }
  exists (seq 0 C ≫= mid). split; [done|]. split.
  - rewrite (length_bind_block _ _ (H * W)) by (intros; apply Hmid).
    rewrite length_seq. lia.
  - intros c h w Hc Hh Hw.
    replace ((c * H + h) * W + w) with (c * (H * W) + (h * W + w)) by lia.
    rewrite (lookup_bind_block _ _ (H * W))
      by (try (intros; apply Hmid); nia).
    rewrite lookup_seq_lt by done. simpl. unfold mid.
    rewrite (lookup_bind_block _ _ W) by (done || intros; apply Hinner).
    rewrite lookup_seq_lt by done. simpl. unfold inner.
    rewrite bind_singleton_fmap, list_lookup_fmap, lookup_seq_lt by done.
    simpl.
    destruct (lookup_lt_is_Some_2 flat ((h * W + w) * C + c)) as [x Hx].
    { rewrite Hlen.
      assert (Hcell : h * W + w + 1 <= H * W) by nia.
      apply (Nat.mul_le_mono_r _ _ C) in Hcell. lia. }
    by rewrite Hx, (nth_lookup_Some _ _ _ _ Hx).
Qed.

(** ** The further properties at concrete inputs *)

Lemma max_overlaps_is_first_row_maximum_witness :
  exists m k,
    overlap_matcher tied_overlaps = Ok m /\
    argmax_overlaps m !! 1 = Some k /\
    k < ncols tied_overlaps /\
    max_overlaps m !! 1 = Some (cell tied_overlaps 1 k) /\
    (forall j, j < ncols tied_overlaps ->
               (cell tied_overlaps 1 j <= cell tied_overlaps 1 k)%Q) /\
    (forall j, j < k -> (cell tied_overlaps 1 j < cell tied_overlaps 1 k)%Q).
Proof.
  apply (max_overlaps_is_first_row_maximum tied_overlaps 1).
  - exact tied_overlaps_well_shaped.
  - simpl. lia.
  - simpl. lia.
Defined.

Lemma labels_without_clobbering_witness :
  exists m labels o,
    label_stage default_labeler tied_overlaps = Ok (m, labels) /\
    max_overlaps m !! 2 = Some o /\
    (2 ∈ gt_argmax_overlaps m \/ (_positive_overlap default_labeler <= o)%Q ->
     labels !! 2 = Some 1%Z) /\
    (2 ∉ gt_argmax_overlaps m -> (o < _positive_overlap default_labeler)%Q ->
     (o < _negative_overlap default_labeler)%Q -> labels !! 2 = Some 0%Z) /\
    (2 ∉ gt_argmax_overlaps m -> (o < _positive_overlap default_labeler)%Q ->
     (_negative_overlap default_labeler <= o)%Q ->
     labels !! 2 = Some (-1)%Z).
Proof.
  apply (labels_without_clobbering default_labeler tied_overlaps 2).
  - exact tied_overlaps_well_shaped.
  - simpl. lia.
  - simpl. lia.
  - reflexivity.
Defined.

Lemma labels_with_clobbering_witness :
  exists m labels o,
    label_stage (set_clobber default_labeler true) tied_overlaps
    = Ok (m, labels) /\
    max_overlaps m !! 2 = Some o /\
    ((o < _negative_overlap (set_clobber default_labeler true))%Q ->
     labels !! 2 = Some 0%Z) /\
    ((_negative_overlap (set_clobber default_labeler true) <= o)%Q ->
     2 ∈ gt_argmax_overlaps m \/
     (_positive_overlap (set_clobber default_labeler true) <= o)%Q ->
     labels !! 2 = Some 1%Z) /\
    ((_negative_overlap (set_clobber default_labeler true) <= o)%Q ->
     2 ∉ gt_argmax_overlaps m ->
     (o < _positive_overlap (set_clobber default_labeler true))%Q ->
     labels !! 2 = Some (-1)%Z).
Proof.
  apply (labels_with_clobbering (set_clobber default_labeler true)
           tied_overlaps 2).
  - exact tied_overlaps_well_shaped.
  - simpl. lia.
  - simpl. lia.
  - reflexivity.
Defined.

Lemma every_ground_truth_has_a_positive_witness :
  exists m labels i,
    label_stage default_labeler tied_overlaps = Ok (m, labels) /\
    i < nrows tied_overlaps /\
    column_max tied_overlaps 0 (cell tied_overlaps i 0) /\
    labels !! i = Some 1%Z.
Proof.
  apply (every_ground_truth_has_a_positive default_labeler tied_overlaps 0).
  - exact tied_overlaps_well_shaped.
  - simpl. lia.
  - simpl. lia.
  - reflexivity.
Defined.


Lemma sampler_rejects_negative_target_witness :
  exists msg,
    subsample first_k (set_batch_size default_labeler (-2)) [1; 0]%Z tt
    = Raise (ValueError msg).
Proof.
  apply (sampler_rejects_negative_target first_k
           (set_batch_size default_labeler (-2)) [1; 0]%Z tt).
  vm_compute. reflexivity.
Defined.

Lemma sampler_is_idempotent_witness :
  exists labels' g',
    subsample rotating_choice (set_batch_size default_labeler 2)
      [1; 1; 1; 0; 0]%Z 0 = Ok (labels', g') /\
    subsample rotating_choice (set_batch_size default_labeler 2) labels' 7
    = Ok (labels', 7).
Proof.
  apply (sampler_is_idempotent rotating_choice rotating_choice_ok
           (set_batch_size default_labeler 2) [1; 1; 1; 0; 0]%Z 0 7).
  - simpl. discriminate.
  - simpl. discriminate.
  - simpl. lia.
Defined.

Lemma inside_weights_gate_on_positive_witness :
  (1%Z = 1%Z ->
   inside_weights default_labeler [0; 1]%Z !! 1
   = Some (_bbox_inside_weights default_labeler)) /\
  (1%Z <> 1%Z ->
   inside_weights default_labeler [0; 1]%Z !! 1 = Some zero4).
Proof.
  apply (inside_weights_gate_on_positive default_labeler [0; 1]%Z 1 1%Z).
  reflexivity.
Defined.

Lemma anchor_targets_shapes_witness :
  exists t g',
    anchor_targets first_k iou_matrix corner_offsets default_labeler
      two_anchors one_gt_box tt = Ok (t, g') /\
    length (labels_of t) = length two_anchors /\
    length (bbox_targets_of t) = length two_anchors /\
    length (bbox_inside_weights_of t) = length two_anchors /\
    length (bbox_outside_weights_of t) = length two_anchors /\
    Forall ternary (labels_of t).
Proof.
  apply (anchor_targets_shapes first_k iou_matrix corner_offsets first_k_ok
           default_labeler two_anchors one_gt_box tt).
  - simpl. lia.
  - simpl. lia.
  - apply iou_matrix_well_shaped.
  - simpl. discriminate.
  - simpl. discriminate.
  - simpl. lia.
Defined.

Lemma targets_ignore_thresholds_and_draws_witness :
  exists t1 t2 g1 g2,
    anchor_targets first_k iou_matrix corner_offsets default_labeler
      two_anchors one_gt_box tt = Ok (t1, g1) /\
    anchor_targets rotating_choice iou_matrix corner_offsets
      (set_clobber (set_batch_size default_labeler 1) true)
      two_anchors one_gt_box 3 = Ok (t2, g2) /\
    labels_of t1 <> labels_of t2 /\
    bbox_targets_of t1 = bbox_targets_of t2.
Proof.
  eexists _, _, _, _.
  split; [vm_compute; reflexivity|].
  split; [vm_compute; reflexivity|].
  split; [discriminate|].
  apply (targets_ignore_thresholds_and_draws first_k iou_matrix
           corner_offsets rotating_choice default_labeler
           (set_clobber (set_batch_size default_labeler 1) true)
           two_anchors one_gt_box tt tt 3 4);
    vm_compute; reflexivity.
Defined.

Lemma unmap_scatters_and_fills_witness :
  exists ret,
    _unmap [5; 7]%Z 4 [3; 1] (-1)%Z = Ok ret /\
    length ret = 4 /\
    (forall k i, [3; 1] !! k = Some i -> ret !! i = [5; 7]%Z !! k) /\
    (forall j, j < 4 -> j ∉ [3; 1] -> ret !! j = Some (-1)%Z).
Proof.
  apply (unmap_scatters_and_fills [5; 7]%Z 4 [3; 1] (-1)%Z).
  - reflexivity.
  - apply NoDup_cons. split; [|apply NoDup_singleton].
    intros Hin. apply list_elem_of_singleton in Hin. discriminate.
  - repeat constructor.
Defined.

Lemma unmap_rejects_shape_mismatch_witness :
  exists msg, _unmap [5; 7; 9]%Z 4 [3; 1] (-1)%Z = Raise (ValueError msg).
Proof.
  apply (unmap_rejects_shape_mismatch [5; 7; 9]%Z 4 [3; 1] (-1)%Z).
  - repeat constructor.
  - simpl. lia.
  - simpl. lia.
Defined.

Lemma unmap_rejects_out_of_range_witness :
  exists msg, _unmap [5; 7]%Z 3 [3; 1] (-1)%Z = Raise (IndexError msg).
Proof.
  apply (unmap_rejects_out_of_range [5; 7]%Z 3 [3; 1] (-1)%Z).
  - reflexivity.
  - apply Exists_cons_hd. lia.
Defined.

Lemma unmap_broadcasts_single_row_witness :
  exists ret,
    _unmap [5%Z] 4 [3; 1] (-1)%Z = Ok ret /\
    length ret = 4 /\
    (forall i, i ∈ [3; 1] -> ret !! i = Some 5%Z) /\
    (forall j, j < 4 -> j ∉ [3; 1] -> ret !! j = Some (-1)%Z).
Proof.
  apply (unmap_broadcasts_single_row 5%Z 4 [3; 1] (-1)%Z).
  repeat constructor.
Defined.


Lemma inside_filter_keeps_inside_witness :
  exists inds,
    inside_filter (<["im_info"%string := PyArray [32; 24; 1]%Q]> module_globals)
      default_labeler [(0, 0, 15, 15); (16, 16, 31, 31)]%Q = Ok inds /\
    NoDup inds /\
    (forall i, i ∈ inds <->
       exists box, [(0, 0, 15, 15); (16, 16, 31, 31)]%Q !! i = Some box /\
                   inside_image (_allowed_border default_labeler) 24 32 box) /\
    length (select_rows [(0, 0, 15, 15); (16, 16, 31, 31)]%Q inds)
    = length inds /\
    Forall (inside_image (_allowed_border default_labeler) 24 32)
      (select_rows [(0, 0, 15, 15); (16, 16, 31, 31)]%Q inds).
Proof.
  apply (inside_filter_keeps_inside
           (<["im_info"%string := PyArray [32; 24; 1]%Q]> module_globals)
           default_labeler [(0, 0, 15, 15); (16, 16, 31, 31)]%Q
           [32; 24; 1]%Q 32 24).
  - vm_compute. reflexivity.
  - reflexivity.
  - reflexivity.
Defined.

Lemma channels_first_layout_witness :
  exists out,
    to_channels_first 1 2 2 0%Z [10; 11; 20; 21]%Z = Ok out /\
    length out = length [10; 11; 20; 21]%Z /\
    forall c h w, c < 2 -> h < 1 -> w < 2 ->
      out !! ((c * 1 + h) * 2 + w)
      = [10; 11; 20; 21]%Z !! ((h * 2 + w) * 2 + c).
Proof.
  apply (channels_first_layout 1 2 2 0%Z [10; 11; 20; 21]%Z).
  reflexivity.
Defined.
